(** * iot-server: the smart-light engine of [iot_app/iot/lights.py]

    A shallow embedding of [Color], the [LightEffect] classes, [Light] and
    [LightManager], and the properties of the specification that concern
    them.

    Python integers are [Z]; [&] and [>>] are [Z.land] and [Z.shiftr];
    dictionaries are [gmap]s; an exception is a value of [exn] carried by
    [result]; attribute writes and device calls are threaded through a
    state-and-exception monad in which, as in Python, the state written
    before an exception is raised stays written. *)

From Stdlib Require Import ZArith Ascii String List Bool Lia.
From stdpp Require Import base option gmap strings list pretty relations.

Local Open Scope string_scope.
Local Open Scope Z_scope.

(** ** Exceptions and results *)

(** The exception classes that occur in [lights.py].  [LightException] is
    the module's own class; it carries the message, which is all that tells
    "props supplied to effect are incorrect" from "cannot connect". *)
Inductive exn : Type :=
  | BulbException
  | TypeError
  | KeyError (key : string)
  | ValueError (msg : string)
  | AttributeError (msg : string)
  | LightException (msg : string).

Inductive result (A : Type) : Type :=
  | Ok (a : A)
  | Raise (e : exn).
Arguments Ok {A} a.
Arguments Raise {A} e.

Definition is_BulbException (e : exn) : bool :=
  match e with BulbException => true | _ => false end.

Definition is_TypeError (e : exn) : bool :=
  match e with TypeError => true | _ => false end.

Definition is_ValueError (e : exn) : bool :=
  match e with ValueError _ => true | _ => false end.

(** ** Text and [int]

    A Python [str] is the list of its code points. *)
Definition pystr : Type := list N.

Definition pystr_of_string (s : string) : pystr :=
  List.map (fun c => N.of_nat (nat_of_ascii c)) (list_ascii_of_string s).

(** [x == s], for an [x] that is a [str] or [None] and a literal [s]. *)
Definition eq_str (x : option pystr) (s : string) : bool :=
  bool_decide (x = Some (pystr_of_string s)).

(** [int(x)] of the interpreter (CPython 3.11), for an [x] that is a [str]
    or [None].  [None] is a [TypeError].  Of a [str], every space of
    Unicode from U+007F on is read as a blank and every decimal digit of
    Unicode as its ASCII digit; what is left must be: ASCII spaces, an
    optional sign, digits with single underscores between them, ASCII
    spaces.  More than 4300 digits are refused (the interpreter's default
    for [int_max_str_digits]).  The messages are given up to the text they
    quote. *)
Module Py.

(** [Py_ISSPACE] *)
Definition is_ascii_space (c : N) : bool :=
  ((9 <=? c) && (c <=? 13) || (c =? 32))%N.

Definition is_ascii_digit (c : N) : bool :=
  ((48 <=? c) && (c <=? 57))%N.

(** The code points from U+007F on for which [str.isspace] holds. *)
Definition unicode_spaces : list N :=
  [133; 160; 5760; 8192; 8193; 8194; 8195; 8196; 8197; 8198; 8199; 8200;
   8201; 8202; 8232; 8233; 8239; 8287; 12288]%N.

(** The digit zero of each run of ten decimal digits (category Nd,
    Unicode 14.0). *)
Definition decimal_zeros : list N :=
  [48; 1632; 1776; 1984; 2406; 2534; 2662; 2790; 2918; 3046; 3174; 3302;
   3430; 3558; 3664; 3792; 3872; 4160; 4240; 6112; 6160; 6470; 6608; 6784;
   6800; 6992; 7088; 7232; 7248; 42528; 43216; 43264; 43472; 43504; 43600;
   44016; 65296; 66720; 68912; 69734; 69872; 69942; 70096; 70384; 70736;
   70864; 71248; 71360; 71472; 71904; 72016; 72784; 73040; 73120; 92768;
   92864; 93008; 120782; 120792; 120802; 120812; 120822; 123200; 123632;
   125264; 130032]%N.

(** [Py_UNICODE_TODECIMAL] *)
Definition to_decimal (c : N) : option N :=
  match List.find (fun zero => (zero <=? c) && (c <? zero + 10))%N decimal_zeros with
  | Some zero => Some (c - zero)%N
  | None => None
  end.

(** The ASCII character read in place of a code point; ["?"] stands for
    one that is neither ASCII, nor a space, nor a decimal digit. *)
Definition to_ascii (c : N) : N :=
  if (c <? 127)%N then c
  else if existsb (N.eqb c) unicode_spaces then 32%N
  else match to_decimal c with
       | Some d => (48 + d)%N
       | None => 63%N
       end.

Fixpoint skip_spaces (cs : list N) : list N :=
  match cs with
  | c :: rest => if is_ascii_space c then skip_spaces rest else cs
  | [] => []
  end.

(** The digits at the head of [cs]: their value after [value], their
    number after [digits], and what follows them; [None] when an
    underscore is not followed by a digit. *)
Fixpoint read_digits (value digits : Z) (cs : list N) : option (Z * Z * list N) :=
  match cs with
  | c :: rest =>
      if is_ascii_digit c then
        read_digits (10 * value + (Z.of_N c - 48)) (digits + 1) rest
      else if (c =? 95)%N then
        match rest with
        | d :: _ => if is_ascii_digit d then read_digits value digits rest else None
        | [] => None
        end
      else Some (value, digits, cs)
  | [] => Some (value, digits, [])
  end.

Definition max_str_digits : Z := 4300.

Definition invalid_literal : result Z :=
  Raise (ValueError "invalid literal for int() with base 10").

Definition int (x : option pystr) : result Z :=
  match x with
  | None => Raise TypeError
  | Some s =>
      let cs := skip_spaces (List.map to_ascii s) in
      let '(sign, cs) :=
        match cs with
        | 43%N :: rest => (1, rest)
        | 45%N :: rest => (-1, rest)
        | _ => (1, cs)
        end in
      match cs with
      | c :: _ =>
          if is_ascii_digit c then
            match read_digits 0 0 cs with
            | Some (value, digits, rest) =>
                if max_str_digits <? digits then
                  Raise (ValueError "Exceeds the limit (4300 digits) for integer string conversion")
                else
                  match skip_spaces rest with
                  | [] => Ok (sign * value)
                  | _ :: _ => invalid_literal
                  end
            | None => invalid_literal
            end
          else invalid_literal
      | [] => invalid_literal
      end
  end.

End Py.
Arguments Py.int : simpl never.

(** ** Hexadecimal text

    [webcolors] (a third-party package, not part of this repository)
    supplies [normalize_hex], [hex_to_rgb] and [rgb_to_hex]; they are
    modelled here after the package's definitions:
    - [normalize_hex] matches [#] followed by three or six characters of
      [a-fA-F0-9] up to the pattern's [$], which stands at the end of the
      string and also before a line feed that ends it; it doubles each of
      three digits and lower-cases;
    - [hex_to_rgb] reads the six digits as one base-16 integer [v] and
      returns [(v >> 16, v >> 8 & 0xFF, v & 0xFF)];
    - [rgb_to_hex] clamps each component to [0..255] and formats it with
      ["{:02x}"]. *)
Module Hex.

Definition in_range (lo hi : nat) (c : ascii) : bool :=
  (lo <=? nat_of_ascii c)%nat && (nat_of_ascii c <=? hi)%nat.

(** [[a-fA-F0-9]] *)
Definition is_hex_digit (c : ascii) : bool :=
  in_range 48 57 c || in_range 97 102 c || in_range 65 70 c.

Definition digit_value (c : ascii) : option Z :=
  let n := Z.of_nat (nat_of_ascii c) in
  if in_range 48 57 c then Some (n - 48)
  else if in_range 97 102 c then Some (n - 87)
  else if in_range 65 70 c then Some (n - 55)
  else None.

(** [str.lower] on one ASCII character. *)
Definition lower_char (c : ascii) : ascii :=
  if in_range 65 90 c then ascii_of_nat (nat_of_ascii c + 32) else c.

(** The digit written for a value below sixteen by the [x] format. *)
Definition hex_char (n : Z) : ascii :=
  if n <? 10 then ascii_of_nat (Z.to_nat (n + 48))
  else ascii_of_nat (Z.to_nat (n + 87)).

(** [int(s, 16)] on a string of hexadecimal digits, most significant
    first; any other character is a [ValueError]. *)
Fixpoint int16_from (acc : Z) (cs : list ascii) : result Z :=
  match cs with
  | [] => Ok acc
  | c :: cs' =>
      match digit_value c with
      | Some d => int16_from (16 * acc + d) cs'
      | None => Raise (ValueError "invalid literal for int() with base 16")
      end
  end.

Definition int16 (cs : list ascii) : result Z :=
  match cs with
  | [] => Raise (ValueError "invalid literal for int() with base 16")
  | _ => int16_from 0 cs
  end.

(** The digits of a positive [v] in base sixteen, prepended to [acc]. *)
Fixpoint hex_digits (fuel : nat) (v : Z) (acc : list ascii) : list ascii :=
  match fuel with
  | O => acc
  | S fuel' =>
      let acc' := hex_char (v mod 16) :: acc in
      if v / 16 =? 0 then acc' else hex_digits fuel' (v / 16) acc'
  end.

(** [format(v, "x")] *)
Definition format_x (v : Z) : list ascii :=
  if v <? 0 then "-"%char :: hex_digits (Z.to_nat (- v)) (- v) []
  else hex_digits (S (Z.to_nat v)) v [].

(** [format(v, "02x")]: zero-padded to a width of two. *)
Definition format_02x (v : Z) : list ascii :=
  let d := format_x v in
  if (List.length d <? 2)%nat then "0"%char :: d else d.

Definition double_each (cs : list ascii) : list ascii :=
  flat_map (fun c => [c; c]) cs.

(** What is left to match before the pattern's [$]: the characters
    without the one line feed that may end them. *)
Fixpoint before_end (cs : list ascii) : list ascii :=
  match cs with
  | [] => []
  | c :: rest =>
      match rest with
      | [] => if Ascii.eqb c "010" then [] else [c]
      | _ :: _ => c :: before_end rest
      end
  end.

Definition normalize_hex (hex_value : string) : result string :=
  match list_ascii_of_string hex_value with
  | c :: rest =>
      let digits := before_end rest in
      if Ascii.eqb c "#"
         && forallb is_hex_digit digits
         && ((List.length digits =? 3)%nat || (List.length digits =? 6)%nat)
      then
        let hex_digits :=
          if (List.length digits =? 3)%nat then double_each digits else digits in
        Ok (string_of_list_ascii ("#"%char :: List.map lower_char hex_digits))
      else Raise (ValueError "is not a valid hexadecimal color value.")
  | [] => Raise (ValueError "is not a valid hexadecimal color value.")
  end.

Definition hex_to_rgb (hex_value : string) : result (Z * Z * Z) :=
  match normalize_hex hex_value with
  | Raise e => Raise e
  | Ok normalized =>
      match int16 (List.tl (list_ascii_of_string normalized)) with
      | Raise e => Raise e
      | Ok int_value =>
          Ok (Z.shiftr int_value 16,
              Z.land (Z.shiftr int_value 8) 255,
              Z.land int_value 255)
      end
  end.

Definition normalize_integer_rgb (value : Z) : Z :=
  if value <? 0 then 0 else if 255 <? value then 255 else value.

Definition rgb_to_hex (rgb_triplet : Z * Z * Z) : string :=
  let '(r, g, b) := rgb_triplet in
  string_of_list_ascii
    ("#"%char :: format_02x (normalize_integer_rgb r)
              ++ format_02x (normalize_integer_rgb g)
              ++ format_02x (normalize_integer_rgb b)).

End Hex.

(** ** Color *)

Record Color : Type := mkColor { red : Z; green : Z; blue : Z }.

Module ColorM.

Definition from_rgb_int (rgb_int : Z) : Color :=
  let blue := Z.land rgb_int 255 in
  let green := Z.land (Z.shiftr rgb_int 8) 255 in
  let red := Z.land (Z.shiftr rgb_int 16) 255 in
  mkColor red green blue.

(** The [try] converts any [ValueError] of the parse into the module's
    own message. *)
Definition from_hex (_hex : string) : result Color :=
  let body :=
    match Hex.normalize_hex _hex with
    | Raise e => Raise e
    | Ok normalized_hex =>
        match Hex.hex_to_rgb normalized_hex with
        | Raise e => Raise e
        | Ok (red, green, blue) => Ok (mkColor red green blue)
        end
    end in
  match body with
  | Raise e =>
      if is_ValueError e then Raise (ValueError "Hex color value supplied is invalid")
      else Raise e
  | Ok c => Ok c
  end.

Definition rgb_tuple (c : Color) : Z * Z * Z := (red c, green c, blue c).

Definition hex (c : Color) : string := Hex.rgb_to_hex (rgb_tuple c).

End ColorM.

(** ** The state-and-exception monad

    A computation reads and writes a state [S] and ends with a value or an
    exception; what was written before a [raise] is kept. *)
Section Monad.
Context {S : Type}.

Definition M (A : Type) : Type := S -> result A * S.

Definition ret {A} (a : A) : M A := fun s => (Ok a, s).

Definition raise {A} (e : exn) : M A := fun s => (Raise e, s).

Definition bind {A B} (m : M A) (k : A -> M B) : M B :=
  fun s =>
    match m s with
    | (Ok a, s') => k a s'
    | (Raise e, s') => (Raise e, s')
    end.

Definition get : M S := fun s => (Ok s, s).

Definition modify (f : S -> S) : M unit := fun s => (Ok tt, f s).

(** [try: m except E: handler], where [catches] recognises the class [E]. *)
Definition try_except {A} (m : M A) (catches : exn -> bool) (handler : M A) : M A :=
  fun s =>
    match m s with
    | (Raise e, s') => if catches e then handler s' else (Raise e, s')
    | r => r
    end.

(** A pure computation that may raise, run inside the monad. *)
Definition lift {A} (r : result A) : M A := fun s => (r, s).

End Monad.

Notation "'let*' x ':=' m 'in' k" := (bind m (fun x => k))
  (at level 10, x name, m at level 100, k at level 200).
Notation "m '>>' k" := (bind m (fun _ => k))
  (at level 90, right associativity).

(** ** The bulb transport ([yeelight.Bulb]) *)

(** The transition lists of [yeelight.transitions], by the call that
    builds them. *)
Inductive transitions : Type :=
  | disco
  | strobe
  | lsd (duration : Z)
  | police (duration : Z)
  | randomloop (duration : Z)
  | pulse (red green blue duration : Z).

Record Flow : Type := mkFlow { flow_count : Z; flow_transitions : transitions }.

(** A call on the bulb. *)
Inductive call : Type :=
  | get_properties
  | set_brightness (n : Z)
  | set_rgb (red green blue : Z)
  | turn_on
  | turn_off
  | start_flow (flow : Flow)
  | stop_flow.

(** What [get_properties] returns: a dictionary from the name of a
    property to the text the device reports for it, [None] where it
    reports none. *)
Definition properties : Type := gmap string (option pystr).

(** The device as one operation meets it: which calls it takes (the others
    end in a [BulbException]) and the properties it reports. *)
Record Bulb : Type := mkBulb {
  accepts : call -> bool;
  reported : properties
}.

(** ** Effects *)

Inductive effect_class : Type :=
  | DiscoEffect
  | StrobeEffect
  | LSDEffect
  | PoliceEffect
  | RandomLoopEffect.

Inductive LightEffect : Type :=
  | Disco (count : Z)
  | Strobe (count : Z)
  | LSD (duration count : Z)
  | Police (count duration : Z)
  | RandomLoop (count duration : Z).

(** The keyword parameters of each constructor. *)
Definition parameters (c : effect_class) : list string :=
  match c with
  | DiscoEffect => ["count"]
  | StrobeEffect => ["count"]
  | LSDEffect => ["duration"; "count"]
  | PoliceEffect => ["count"; "duration"]
  | RandomLoopEffect => ["count"; "duration"]
  end.

(** The call of a constructor with the dictionary as keyword arguments:
    a keyword that is no parameter of the constructor is
    a [TypeError]; an absent one takes its default. *)
Definition construct (c : effect_class) (kwargs : gmap string Z) : result LightEffect :=
  if bool_decide (map_Forall (fun k _ => k ∈ parameters c) kwargs) then
    let arg (k : string) (d : Z) := default d (kwargs !! k) in
    Ok match c with
       | DiscoEffect => Disco (arg "count" 0)
       | StrobeEffect => Strobe (arg "count" 0)
       | LSDEffect => LSD (arg "duration" 1000) (arg "count" 0)
       | PoliceEffect => Police (arg "count" 0) (arg "duration" 300)
       | RandomLoopEffect => RandomLoop (arg "count" 0) (arg "duration" 500)
       end
  else Raise TypeError.

Definition get_flow (e : LightEffect) : Flow :=
  match e with
  | Disco count => mkFlow count disco
  | Strobe count => mkFlow count strobe
  | LSD duration count => mkFlow count (lsd duration)
  | Police count duration => mkFlow count (police duration)
  | RandomLoop count duration => mkFlow count (randomloop duration)
  end.

Definition effects_map : gmap string effect_class :=
  list_to_map
    [("disco", DiscoEffect); ("lsd", LSDEffect); ("police", PoliceEffect);
     ("strobe", StrobeEffect); ("random", RandomLoopEffect)].

(** [d[key]] *)
Definition getitem {A} (d : gmap string A) (key : string) : result A :=
  match d !! key with
  | Some v => Ok v
  | None => Raise (KeyError key)
  end.
Arguments getitem : simpl never.

(** ** Light *)

(** The private attributes of a [Light], apart from the bulb handle and
    the lock. *)
Record Light : Type := mkLight {
  ip : string;
  _id : string;
  name : pystr;
  is_default : bool;
  is_connected : bool;
  brightness : Z;
  on : bool;
  color : option Color;
  is_flowing : bool;
  effect : option string;
  effect_props : gmap string Z
}.

Definition with_is_connected (v : bool) (l : Light) : Light :=
  mkLight (ip l) (_id l) (name l) (is_default l) v (brightness l) (on l)
          (color l) (is_flowing l) (effect l) (effect_props l).

Definition with_brightness (v : Z) (l : Light) : Light :=
  mkLight (ip l) (_id l) (name l) (is_default l) (is_connected l) v (on l)
          (color l) (is_flowing l) (effect l) (effect_props l).

Definition with_on (v : bool) (l : Light) : Light :=
  mkLight (ip l) (_id l) (name l) (is_default l) (is_connected l) (brightness l) v
          (color l) (is_flowing l) (effect l) (effect_props l).

Definition with_color (v : option Color) (l : Light) : Light :=
  mkLight (ip l) (_id l) (name l) (is_default l) (is_connected l) (brightness l) (on l)
          v (is_flowing l) (effect l) (effect_props l).

Definition with_is_flowing (v : bool) (l : Light) : Light :=
  mkLight (ip l) (_id l) (name l) (is_default l) (is_connected l) (brightness l) (on l)
          (color l) v (effect l) (effect_props l).

Definition with_effect (v : option string) (l : Light) : Light :=
  mkLight (ip l) (_id l) (name l) (is_default l) (is_connected l) (brightness l) (on l)
          (color l) (is_flowing l) v (effect_props l).

Definition with_effect_props (v : gmap string Z) (l : Light) : Light :=
  mkLight (ip l) (_id l) (name l) (is_default l) (is_connected l) (brightness l) (on l)
          (color l) (is_flowing l) (effect l) v.

(** The state an operation of a [Light] works on: the object's attributes
    and the calls issued on its bulb so far, oldest first. *)
Record heap : Type := mkHeap { self : Light; issued : list call }.

(** The value handed to the [color] setter. *)
Inductive color_arg : Type :=
  | AColor (c : Color)
  | AStr (s : string)
  | ATuple (t : list Z)
  | AOther.

Module LightM.

Definition assign (f : Light -> Light) : M unit :=
  modify (fun h => mkHeap (f (self h)) (issued h)).

(** A call on [self.__bulb]: it is issued, and then taken or refused. *)
Definition bulb_call (bulb : Bulb) (c : call) : M unit :=
  fun h =>
    let h' := mkHeap (self h) (issued h ++ [c]) in
    if accepts bulb c then (Ok tt, h') else (Raise BulbException, h').

Definition bulb_get_properties (bulb : Bulb) : M properties :=
  bulb_call bulb get_properties >> ret (reported bulb).

Definition clear_effect : M unit :=
  assign (with_is_flowing false) >>
  assign (with_effect None) >>
  assign (with_effect_props ∅).

Definition clear_connection_props : M unit :=
  assign (with_is_connected false) >>
  clear_effect.

Definition handle_connection_failure {A} : M A :=
  clear_connection_props >>
  let* h := get in
  raise (LightException ("Cannot connect to the smart bulb with IP: " +:+ ip (self h))).

(** The [brightness] setter. *)
Definition set_brightness_prop (bulb : Bulb) (new_brightness : Z) : M unit :=
  if negb ((1 <=? new_brightness) && (new_brightness <=? 100)) then
    raise (ValueError "Brightness must be between 1 and 100")
  else
    try_except (bulb_call bulb (set_brightness new_brightness))
               is_BulbException handle_connection_failure >>
    assign (with_brightness new_brightness).

(** [Color( *new_color )]: three positional arguments, or a [TypeError]. *)
Definition color_of_tuple (t : list Z) : result Color :=
  match t with
  | [r; g; b] => Ok (mkColor r g b)
  | _ => Raise TypeError
  end.

(** The [color] setter. *)
Definition set_color_prop (bulb : Bulb) (new_color : color_arg) : M unit :=
  let* color_obj :=
    match new_color with
    | AOther => raise (ValueError "Color must be Color object, hex string or RGB tuple")
    | AColor c => ret c
    | AStr s => lift (ColorM.from_hex s)
    | ATuple t => lift (color_of_tuple t)
    end in
  try_except (bulb_call bulb (set_rgb (red color_obj) (green color_obj) (blue color_obj)))
             is_BulbException handle_connection_failure >>
  assign (with_color (Some color_obj)).

(** The [on] setter. *)
Definition set_on_prop (bulb : Bulb) (new_on : bool) : M unit :=
  try_except
    (if new_on then bulb_call bulb turn_on
     else bulb_call bulb turn_off >> clear_effect)
    is_BulbException handle_connection_failure >>
  assign (with_on new_on).

Definition set_effect (bulb : Bulb) (effect_name : option string)
    (effect_props : option (gmap string Z)) : M unit :=
  let effect_props := default ∅ effect_props in
  try_except
    match effect_name with
    | None => bulb_call bulb stop_flow >> clear_effect
    | Some effect_name =>
        try_except
          (let* cls := lift (getitem effects_map effect_name) in
           let* effect := lift (construct cls effect_props) in
           bulb_call bulb (start_flow (get_flow effect)) >>
           assign (with_is_flowing true) >>
           assign (with_effect (Some effect_name)) >>
           assign (with_effect_props effect_props))
          is_TypeError
          (raise (LightException "Props supplied to effect are incorrect"))
    end
    is_BulbException handle_connection_failure.

(** [__refresh_props]: only a [BulbException] is caught; the exception of
    a lookup in the answer or of [int] leaves the method after the
    attributes written so far. *)
Definition refresh_props (bulb : Bulb) : M unit :=
  try_except
    (let* props := bulb_get_properties bulb in
     assign (with_is_connected true) >>
     let* bright := lift (getitem props "bright") in
     let* brightness := lift (Py.int bright) in
     assign (with_brightness brightness) >>
     let* power := lift (getitem props "power") in
     assign (with_on (eq_str power "on")) >>
     let* rgb := lift (getitem props "rgb") in
     let* rgb_int := lift (Py.int rgb) in
     assign (with_color (Some (ColorM.from_rgb_int rgb_int))) >>
     let* flowing := lift (getitem props "flowing") in
     assign (with_is_flowing (eq_str flowing "1")))
    is_BulbException clear_connection_props.

(** [Light.__init__]: the attributes as first written, then a refresh when
    the discovery found the bulb; an exception of that refresh leaves the
    constructor, and no Light is returned. *)
Definition init (bulb : Bulb) (ip _id : string) (name : pystr)
    (is_default is_connected : bool) : result unit * heap :=
  let h := mkHeap (mkLight ip _id name is_default is_connected 0 false None false None ∅) [] in
  if is_connected then refresh_props bulb h else (Ok tt, h).

End LightM.

(** An operation on a [Light] that goes to its bulb, by a caller or by
    the refresh thread.  The assignments of the name and of the default
    flag, which go to the database, are [identity_operation] below;
    [command] joins the two. *)
Inductive operation : Type :=
  | SetBrightness (new_brightness : Z)
  | SetColor (new_color : color_arg)
  | SetOn (new_on : bool)
  | SetEffect (effect_name : option string) (effect_props : option (gmap string Z))
  | Refresh.

Definition perform (bulb : Bulb) (o : operation) : M unit :=
  match o with
  | SetBrightness n => LightM.set_brightness_prop bulb n
  | SetColor v => LightM.set_color_prop bulb v
  | SetOn b => LightM.set_on_prop bulb b
  | SetEffect n p => LightM.set_effect bulb n p
  | Refresh => LightM.refresh_props bulb
  end.

(** A history: each operation with the device as it behaves at that time.
    An exception goes to the caller of that operation; the [Light] stays
    and takes the next one.  (A refresh tick that raises ends the refresh
    thread, so that no tick follows it in the code: the histories here are
    those of the code and more.) *)
Fixpoint run (history : list (Bulb * operation)) (h : heap) : heap :=
  match history with
  | [] => h
  | (bulb, o) :: rest => run rest (snd (perform bulb o h))
  end.

(** ** NotificationLevel and LightManager *)

Module NotificationLevel.
(*                          R    G    B  *)
Definition OK : Z * Z * Z := (0, 255, 100).
Definition INFO : Z * Z * Z := (0, 150, 255).
Definition WARNING : Z * Z * Z := (255, 150, 0).
Definition ERROR : Z * Z * Z := (255, 0, 50).
End NotificationLevel.

(** What may stand in the loop of [notify]: a bulb of the transport (by its
    address), a [Light], or a list of [Light]s. *)
Inductive pyobj : Type :=
  | PBulb (address : string)
  | PLight (l : Light)
  | PList (items : list Light).

Fixpoint for_each {S A} (xs : list A) (body : A -> M (S := S) unit) : M unit :=
  match xs with
  | [] => ret tt
  | x :: rest => body x >> for_each rest body
  end.

Section LightManager.

(** The upper-case mapping of a code point outside ASCII: Unicode's, which
    is Python's and no part of this repository. *)
Variable unicode_upper : N -> list N.

(** [config['lights']['notify_duration']] *)
Variable notify_duration : Z.

(** The network, as [notify] meets it: the device behind each address. *)
Variable network : string -> Bulb.

Definition upper_char (c : N) : list N :=
  if ((97 <=? c) && (c <=? 122))%N then [(c - 32)%N]
  else if (c <? 128)%N then [c]
  else unicode_upper c.

(** [str.upper] *)
Definition upper (s : pystr) : pystr := flat_map upper_char s.

Fixpoint get_light_by_name (lights : list Light) (s : pystr) : option Light :=
  match lights with
  | [] => None
  | light :: rest =>
      if bool_decide (name light = upper s) then Some light
      else get_light_by_name rest s
  end.

Definition default_lights (lights : list Light) : list Light :=
  List.filter is_default lights.

(** [bulb.start_flow(flow)]: only a bulb of the transport has the method;
    neither [list] nor [Light] defines it.  The state is the list of the
    calls issued on the network, each with its address. *)
Definition call_start_flow (bulb : pyobj) (flow : Flow) : M (S := list (string * call)) unit :=
  match bulb with
  | PBulb address =>
      fun net : list (string * call) =>
        let net' := (net ++ [(address, start_flow flow)])%list in
        if accepts (network address) (start_flow flow) then (Ok tt, net')
        else (Raise BulbException, net')
  | PLight _ => raise (AttributeError "'Light' object has no attribute 'start_flow'")
  | PList _ => raise (AttributeError "'list' object has no attribute 'start_flow'")
  end.

Definition notify (lights : list Light) (level : Z * Z * Z) (bulbs : list pyobj)
    : M (S := list (string * call)) unit :=
  let '(red, green, blue) := level in
  let flow := mkFlow 3 (pulse red green blue notify_duration) in
  let bulbs :=
    if (List.length bulbs =? 0)%nat then [PList (default_lights lights)] else bulbs in
  for_each bulbs (fun bulb => call_start_flow bulb flow).

End LightManager.

(** The addresses on which a flow was started, in a list of network calls. *)
Definition pulsed (net : list (string * call)) : list string :=
  List.map fst (List.filter (fun ac => match snd ac with start_flow _ => true | _ => false end) net).

(** ** Predicates of the specification *)

(** [is_flowing] is true exactly when an effect name is recorded. *)
Definition effect_invariant (l : Light) : Prop :=
  is_flowing l = true <-> is_Some (effect l).

(** No effect is active: the state [__clear_effect] leaves. *)
Definition effect_cleared (l : Light) : Prop :=
  is_flowing l = false /\ effect l = None /\ effect_props l = ∅.

(** The live fields other than the effect are those of [l0]. *)
Definition same_live_fields (l0 l : Light) : Prop :=
  on l = on l0 /\ brightness l = brightness l0 /\ color l = color l0.

Definition channel_ok (v : Z) : Prop := 0 <= v <= 255.

Definition channels_in_range (c : Color) : Prop :=
  channel_ok (red c) /\ channel_ok (green c) /\ channel_ok (blue c).

(** [red << 16 | green << 8 | blue] *)
Definition packed (c : Color) : Z :=
  Z.lor (Z.shiftl (red c) 16) (Z.lor (Z.shiftl (green c) 8) (blue c)).

(** A step of a history in which a refresh, if it is one, gets no answer. *)
Definition refresh_fails (step : Bulb * operation) : Prop :=
  snd step = Refresh -> accepts (fst step) get_properties = false.

(** The message of the error raised when the bulb refuses a call. *)
Definition cannot_connect (l : Light) : exn :=
  LightException ("Cannot connect to the smart bulb with IP: " +:+ ip l).


(** The character [c] is a lower-case hexadecimal digit of value [n]. *)
Definition digit_of (c : ascii) (n : Z) : Prop :=
  Hex.is_hex_digit c = true /\ Hex.lower_char c = c /\ Hex.digit_value c = Some n.

(** The integer read from six hexadecimal digits, most significant first. *)
Definition six_digits (n1 n2 n3 n4 n5 n6 : Z) : Z :=
  n1 * 1048576 + n2 * 65536 + n3 * 4096 + n4 * 256 + n5 * 16 + n6.

(** ** Sample devices and lights *)

Module Sample.

(** An answer of a bulb, from the text of each property. *)
Definition answer (bright power rgb flowing : string) : properties :=
  list_to_map
    [("bright", Some (pystr_of_string bright)); ("power", Some (pystr_of_string power));
     ("rgb", Some (pystr_of_string rgb)); ("flowing", Some (pystr_of_string flowing))].

(** A bulb that takes every call and reports: on, brightness 50, green,
    a flow running. *)
Definition responsive : Bulb :=
  mkBulb (fun _ => true) (answer "50" "on" "65280" "1").

(** A bulb that takes no call. *)
Definition unreachable : Bulb :=
  mkBulb (fun _ => false) (answer "0" "off" "0" "0").

(** A bulb of white light only: it takes every call and reports no [rgb]. *)
Definition white_only : Bulb :=
  mkBulb (fun _ => true) (<["rgb" := None]> (answer "50" "on" "0" "0")).

(** A light as [Light.__init__] leaves it when the discovery did not find
    the bulb. *)
Definition lamp : heap :=
  snd (LightM.init unreachable "192.168.1.10" "5f1d" (pystr_of_string "LAMP") true false).

(** The same light after a refresh tick answered by [responsive]. *)
Definition lamp_on : heap := run [(responsive, Refresh)] lamp.

Definition desk : Light :=
  mkLight "192.168.1.11" "5f1e" (pystr_of_string "Desk") false false 0 false None false None ∅.

(** The text ["#fff"] followed by a line feed. *)
Definition white_and_line_feed : string := "#fff" +:+ String "010" EmptyString.

(** A table for the code points outside ASCII that maps each to itself. *)
Definition no_mapping (c : N) : list N := [c].


End Sample.

(** ** Further predicates *)

(** The identity of a Light: what the database holds of it. *)
Definition same_identity (l0 l : Light) : Prop :=
  ip l = ip l0 /\ _id l = _id l0 /\ name l = name l0 /\ is_default l = is_default l0.

(** The recorded effect is a key of [effects_map] and the recorded
    parameters are parameters of its class; with no effect recorded there
    are no parameters. *)
Definition recorded_effect_known (l : Light) : Prop :=
  match effect l with
  | None => effect_props l = ∅
  | Some effect_name =>
      exists cls : effect_class,
        effects_map !! effect_name = Some cls
        /\ map_Forall (fun k _ => k ∈ parameters cls) (effect_props l)
  end.

(** No refresh tick of the history raises, from the state [h] on. *)
Fixpoint refreshes_return (history : list (Bulb * operation)) (h : heap) : Prop :=
  match history with
  | [] => True
  | (bulb, o) :: rest =>
      (o = Refresh -> fst (perform bulb o h) = Ok tt)
      /\ refreshes_return rest (snd (perform bulb o h))
  end.

(** A connected Light has a colour. *)
Definition connected_has_color (l : Light) : Prop :=
  is_connected l = true -> is_Some (color l).

(** The call a command sends to the bulb when its arguments are accepted;
    [None] when the arguments are rejected before any call. *)
Definition keys_accepted (cls : effect_class) (kwargs : gmap string Z) : Prop :=
  map_Forall (fun k _ => k ∈ parameters cls) kwargs.

(** [int(props[key])] *)
Definition int_of (props : properties) (key : string) : result Z :=
  match getitem props key with
  | Ok x => Py.int x
  | Raise e => Raise e
  end.

(** ** dump_props *)

(** The values of the dictionary [dump_props] returns. *)
Inductive pyvalue : Type :=
  | VStr (s : string)
  | VText (s : pystr)
  | VBool (b : bool)
  | VInt (n : Z)
  | VNone
  | VDict (d : gmap string Z).

Definition value_of_effect (e : option string) : pyvalue :=
  match e with
  | None => VNone
  | Some effect_name => VStr effect_name
  end.

(** [self.color.hex], where [self.color] may still be [None]. *)
Definition color_hex (c : option Color) : result string :=
  match c with
  | Some c => Ok (ColorM.hex c)
  | None => Raise (AttributeError "'NoneType' object has no attribute 'hex'")
  end.

Definition dump_props (l : Light) : result (gmap string pyvalue) :=
  let props : gmap string pyvalue :=
    list_to_map
      [("id", VStr (_id l)); ("ip", VStr (ip l)); ("name", VText (name l));
       ("is_default", VBool (is_default l)); ("is_connected", VBool (is_connected l))] in
  if is_connected l then
    match color_hex (color l) with
    | Raise e => Raise e
    | Ok hex =>
        Ok (list_to_map
              [("brightness", VInt (brightness l)); ("on", VBool (on l));
               ("color", VStr hex); ("is_flowing", VBool (is_flowing l));
               ("effect", value_of_effect (effect l));
               ("effect_props", VDict (effect_props l))]
            ∪ props)
    end
  else Ok props.

(** The keys [dump_props] always gives, and those it adds for a connected
    Light. *)
Definition identity_keys : gset string :=
  list_to_set ["id"; "ip"; "name"; "is_default"; "is_connected"].

Definition live_keys : gset string :=
  list_to_set ["brightness"; "on"; "color"; "is_flowing"; "effect"; "effect_props"].

(** A colour with each channel brought into [0, 255], as [rgb_to_hex]
    does before it formats. *)
Definition clamped (c : Color) : Color :=
  mkColor (Hex.normalize_integer_rgb (red c))
          (Hex.normalize_integer_rgb (green c))
          (Hex.normalize_integer_rgb (blue c)).

(** The flow [notify] builds for a level. *)
Definition notification_flow (notify_duration : Z) (level : Z * Z * Z) : Flow :=
  let '(red, green, blue) := level in
  mkFlow 3 (pulse red green blue notify_duration).

(** ** More of LightManager *)

Definition is_ascii (c : N) : Prop := (c < 128)%N.

Fixpoint get_light_by_ip (lights : list Light) (ip0 : string) : option Light :=
  match lights with
  | [] => None
  | light :: rest =>
      if String.eqb (ip light) ip0 then Some light else get_light_by_ip rest ip0
  end.

(** ** The name and the default flag, and the database *)

(** A call of [db.save_light]: the dictionary and the [_id] it is given. *)
Record saved_light : Type := mkSaved {
  saved_ip : string;
  saved_name : pystr;
  saved_is_default : bool;
  saved_id : string
}.

(** A Light with the calls of [db.save_light] made for it, oldest first. *)
Record stored : Type := mkStored { cached : Light; saved : list saved_light }.

Definition with_name (v : pystr) (l : Light) : Light :=
  mkLight (ip l) (_id l) v (is_default l) (is_connected l) (brightness l) (on l)
          (color l) (is_flowing l) (effect l) (effect_props l).

Definition with_is_default (v : bool) (l : Light) : Light :=
  mkLight (ip l) (_id l) (name l) v (is_connected l) (brightness l) (on l)
          (color l) (is_flowing l) (effect l) (effect_props l).

(** What [__save] writes for a Light. *)
Definition record_of (l : Light) : saved_light :=
  mkSaved (ip l) (name l) (is_default l) (_id l).

Definition save : M (S := stored) unit :=
  modify (fun st => mkStored (cached st) (saved st ++ [record_of (cached st)])).

(** The [name] setter; [max_light_length] is
    [config['lights']['max_light_length']]. *)
Definition set_name_prop (max_light_length : Z) (new_name : pystr) : M (S := stored) unit :=
  if max_light_length <? Z.of_nat (List.length new_name) then
    raise (ValueError ("Light name may have a maximum of "
                       +:+ pretty max_light_length +:+ " characters"))
  else
    modify (fun st => mkStored (with_name new_name (cached st)) (saved st)) >>
    save.

(** The [is_default] setter. *)
Definition set_is_default_prop (new_is_default : bool) : M (S := stored) unit :=
  modify (fun st => mkStored (with_is_default new_is_default (cached st)) (saved st)) >>
  save.

Inductive identity_operation : Type :=
  | SetName (new_name : pystr)
  | SetIsDefault (new_is_default : bool).

Definition perform_identity (max_light_length : Z) (o : identity_operation)
    : M (S := stored) unit :=
  match o with
  | SetName new_name => set_name_prop max_light_length new_name
  | SetIsDefault new_is_default => set_is_default_prop new_is_default
  end.

Fixpoint run_identity (max_light_length : Z) (history : list identity_operation)
    (st : stored) : stored :=
  match history with
  | [] => st
  | o :: rest =>
      run_identity max_light_length rest (snd (perform_identity max_light_length o st))
  end.

(** *** Every way of writing to a Light

    The operations on the bulb and the two assignments that go to the
    database act on the same object: the attributes, the calls issued on
    the bulb and the records saved.  A command is an operation of either
    kind. *)
Inductive command : Type :=
  | OnBulb (bulb : Bulb) (o : operation)
  | OnRecord (o : identity_operation).

Record object : Type := mkObject {
  light : Light;
  calls : list call;
  saves : list saved_light
}.

Definition execute (max_light_length : Z) (c : command) (ob : object)
    : result unit * object :=
  match c with
  | OnBulb bulb o =>
      let '(r, h) := perform bulb o (mkHeap (light ob) (calls ob)) in
      (r, mkObject (self h) (issued h) (saves ob))
  | OnRecord o =>
      let '(r, st) := perform_identity max_light_length o (mkStored (light ob) (saves ob)) in
      (r, mkObject (cached st) (calls ob) (saved st))
  end.

Fixpoint run_commands (max_light_length : Z) (history : list command) (ob : object)
    : object :=
  match history with
  | [] => ob
  | c :: rest => run_commands max_light_length rest (snd (execute max_light_length c ob))
  end.

(** The names a history assigns that pass the length check, and the
    default flags it assigns, oldest first. *)
Definition names_taken (max_light_length : Z) (history : list command) : list pystr :=
  flat_map
    (fun c =>
       match c with
       | OnRecord (SetName new_name) =>
           if max_light_length <? Z.of_nat (List.length new_name) then [] else [new_name]
       | _ => []
       end)
    history.

Definition flags_given (history : list command) : list bool :=
  flat_map
    (fun c =>
       match c with
       | OnRecord (SetIsDefault new_is_default) => [new_is_default]
       | _ => []
       end)
    history.

(** The database agrees with the Light: the record last saved, if any, is
    the Light's. *)
Definition in_sync (st : stored) : Prop :=
  forall r : saved_light, last (saved st) = Some r -> r = record_of (cached st).

(** ** Discovery

    [__do_lights_discovery] walks the records of the database and, for
    each address that has no Light in the collection at that moment, hands
    the construction of a Light to a thread pool; the constructed Light is
    appended to the collection when its construction completes, which may
    be before or after the walk looks at the next records; a construction
    that raises appends nothing.  The [with] block ends when every
    construction has completed.  The pass is a step relation; the records
    are those [db.get_lights] returned and [connected_bulbs] holds the
    addresses [discover_bulbs] found. *)

Record db_light : Type := mkDbLight {
  db_id : string;
  db_ip : string;
  db_name : pystr;
  db_is_default : bool
}.

(** [Light( **db_light, is_connected=is_connected )]: the Light, or the
    exception that leaves the constructor. *)
Definition construct_light (network : string -> Bulb) (connected_bulbs : list string)
    (r : db_light) : result Light :=
  let is_connected := bool_decide (db_ip r ∈ connected_bulbs) in
  match LightM.init (network (db_ip r)) (db_ip r) (db_id r) (db_name r)
                    (db_is_default r) is_connected with
  | (Ok _, h) => Ok (self h)
  | (Raise e, _) => Raise e
  end.

(** The records still to walk, the collection, and the constructions
    handed to the pool whose callback has not run yet, each with its
    outcome. *)
Record discovery : Type := mkDiscovery {
  todo : list db_light;
  collection : list Light;
  pending : list (result Light)
}.

(** The callback of a construction appends [future.result()]; when the
    construction raised, so does [future.result()], inside the callback,
    and nothing is appended. *)
Inductive discovery_step (network : string -> Bulb) (connected_bulbs : list string)
    : discovery -> discovery -> Prop :=
  | step_known (r : db_light) (rest : list db_light) (ls : list Light)
      (ps : list (result Light)) (l : Light) :
      get_light_by_ip ls (db_ip r) = Some l ->
      discovery_step network connected_bulbs
        (mkDiscovery (r :: rest) ls ps) (mkDiscovery rest ls ps)
  | step_submit (r : db_light) (rest : list db_light) (ls : list Light)
      (ps : list (result Light)) :
      get_light_by_ip ls (db_ip r) = None ->
      discovery_step network connected_bulbs
        (mkDiscovery (r :: rest) ls ps)
        (mkDiscovery rest ls (ps ++ [construct_light network connected_bulbs r]))
  | step_done (rs : list db_light) (ls : list Light) (ps1 : list (result Light))
      (l : Light) (ps2 : list (result Light)) :
      discovery_step network connected_bulbs
        (mkDiscovery rs ls (ps1 ++ Ok l :: ps2)) (mkDiscovery rs (ls ++ [l]) (ps1 ++ ps2))
  | step_failed (rs : list db_light) (ls : list Light) (ps1 : list (result Light))
      (e : exn) (ps2 : list (result Light)) :
      discovery_step network connected_bulbs
        (mkDiscovery rs ls (ps1 ++ Raise e :: ps2)) (mkDiscovery rs ls (ps1 ++ ps2)).

(** One pass: from the records and the collection, nothing pending, to the
    end of the [with] block. *)
Definition discovery_pass (network : string -> Bulb) (connected_bulbs : list string)
    (db : list db_light) (before after : list Light) : Prop :=
  rtc (discovery_step network connected_bulbs)
      (mkDiscovery db before []) (mkDiscovery [] after []).

(** The pass in which every construction completes before the walk goes
    on. *)
Fixpoint discover_in_turn (network : string -> Bulb) (connected_bulbs : list string)
    (db : list db_light) (ls : list Light) : list Light :=
  match db with
  | [] => ls
  | r :: rest =>
      match get_light_by_ip ls (db_ip r) with
      | Some _ => discover_in_turn network connected_bulbs rest ls
      | None =>
          match construct_light network connected_bulbs r with
          | Ok l => discover_in_turn network connected_bulbs rest (ls ++ [l])
          | Raise _ => discover_in_turn network connected_bulbs rest ls
          end
      end
  end.

(** The Lights among the outcomes of constructions. *)
Definition built (outcomes : list (result Light)) : list Light :=
  flat_map (fun outcome => match outcome with Ok l => [l] | Raise _ => [] end) outcomes.

(** What a run keeps true: the collection only grows at its end, and what
    it gains, or is about to gain, was built from a record whose address
    had no Light in the collection the run started from. *)
Definition grown_from (network : string -> Bulb) (connected_bulbs : list string)
    (db0 : list db_light) (ls0 : list Light) (d : discovery) : Prop :=
  (forall r : db_light, r ∈ todo d -> r ∈ db0)
  /\ exists new : list Light,
       collection d = (ls0 ++ new)%list
       /\ forall l : Light, l ∈ (new ++ built (pending d))%list ->
            exists r : db_light,
              r ∈ db0 /\ construct_light network connected_bulbs r = Ok l
              /\ get_light_by_ip ls0 (db_ip r) = None.

(** The addresses stay distinct. *)
Definition distinct_addresses (d : discovery) : Prop :=
  NoDup (db_ip <$> (todo d))
  /\ NoDup (ip <$> (collection d ++ built (pending d))%list)
  /\ forall r : db_light, r ∈ todo d -> db_ip r ∉ ip <$> (built (pending d)).

(** Every record is still to walk, or has its Light, or is one whose
    construction raises. *)
Definition covered (network : string -> Bulb) (connected_bulbs : list string)
    (db0 : list db_light) (d : discovery) : Prop :=
  forall r : db_light,
    r ∈ db0 ->
    r ∈ todo d
    \/ db_ip r ∈ ip <$> (collection d ++ built (pending d))%list
    \/ exists e : exn, construct_light network connected_bulbs r = Raise e.

(** Two records of the database and a network for the examples: the bulb
    at 192.168.1.10 answers, no other does. *)
Definition record_lamp : db_light :=
  mkDbLight "5f1d" "192.168.1.10" (pystr_of_string "LAMP") true.

Definition record_desk : db_light :=
  mkDbLight "5f1e" "192.168.1.11" (pystr_of_string "DESK") false.

Definition home_network (address : string) : Bulb :=
  if String.eqb address "192.168.1.10" then Sample.responsive else Sample.unreachable.

(** A record for a bulb of white light only, and the network with it. *)
Definition record_hall : db_light :=
  mkDbLight "5f1f" "192.168.1.12" (pystr_of_string "HALL") true.

Definition house_network (address : string) : Bulb :=
  if String.eqb address "192.168.1.12" then Sample.white_only else home_network address.

(** ** Theorems *)

(** *** What a lookup and [int] raise *)

Lemma getitem_Ok {A} (d : gmap string A) (key : string) (v : A) :
  getitem d key = Ok v <-> d !! key = Some v.
Proof.
  unfold getitem. destruct (d !! key); split; intros H; congruence.
Qed.

Lemma getitem_Raise {A} (d : gmap string A) (key : string) (e : exn) :
  getitem d key = Raise e -> e = KeyError key.
Proof.
  unfold getitem. destruct (d !! key); [discriminate | intros [= <-]; reflexivity].
Qed.

Lemma int_Raise (x : option pystr) (e : exn) :
  Py.int x = Raise e -> e = TypeError \/ exists msg : string, e = ValueError msg.
Proof.
  unfold Py.int, Py.invalid_literal.
  repeat match goal with
    | |- context [match ?x with _ => _ end] =>
        lazymatch x with
        | context [match _ with _ => _ end] => fail
        | _ => destruct x
        end
    end;
    intros [= <-]; eauto.
Qed.

Example int_of_decimal_text :
  Py.int (Some (pystr_of_string "65280")) = Ok 65280
  /\ Py.int (Some (pystr_of_string " -1_000 ")) = Ok (-1000)
  /\ Py.int (Some [1635; 1632]%N) = Ok 30.
Proof. vm_compute. repeat split. Qed.

Example int_refuses :
  Py.int None = Raise TypeError
  /\ Py.int (Some []) = Raise (ValueError "invalid literal for int() with base 10")
  /\ Py.int (Some (pystr_of_string "on")) = Raise (ValueError "invalid literal for int() with base 10")
  /\ Py.int (Some (pystr_of_string "1__0")) = Raise (ValueError "invalid literal for int() with base 10").
Proof. vm_compute. repeat split. Qed.

(** Neither is the transport's exception, which alone the refresh and the
    commands catch. *)
Lemma getitem_not_from_bulb {A} (d : gmap string A) (key : string) (e : exn) :
  getitem d key = Raise e -> is_BulbException e = false.
Proof. intros H. apply getitem_Raise in H. subst e. reflexivity. Qed.

Lemma int_not_from_bulb (x : option pystr) (e : exn) :
  Py.int x = Raise e -> is_BulbException e = false.
Proof. intros H. apply int_Raise in H. destruct H as [-> | [msg ->]]; reflexivity. Qed.

Ltac not_from_bulb :=
  match goal with
  | H : getitem _ _ = Raise ?e, Hb : is_BulbException ?e = true |- _ =>
      rewrite (getitem_not_from_bulb _ _ _ H) in Hb; discriminate Hb
  | H : Py.int _ = Raise ?e, Hb : is_BulbException ?e = true |- _ =>
      rewrite (int_not_from_bulb _ _ H) in Hb; discriminate Hb
  end.

(** Unfolds an operation down to the matches on the device's answers. *)
Ltac unfold_light :=
  unfold perform, LightM.set_brightness_prop, LightM.set_color_prop, LightM.set_on_prop,
    LightM.set_effect, LightM.refresh_props, LightM.handle_connection_failure,
    LightM.clear_connection_props, LightM.clear_effect, LightM.bulb_get_properties,
    LightM.bulb_call, LightM.assign, try_except, bind, ret, raise, lift, get, modify in *.

(** C5. For every Light and every brightness [n] between 1 and 100, when the
    bulb refuses the brightness command the setter raises the error that
    names the bulb's address, leaves the Light disconnected, and keeps the
    brightness that was cached before. *)
Theorem brightness_failure_not_cached (bulb : Bulb) (h : heap) (n : Z) :
  1 <= n <= 100 ->
  accepts bulb (set_brightness n) = false ->
  fst (LightM.set_brightness_prop bulb n h) = Raise (cannot_connect (self h))
  /\ is_connected (self (snd (LightM.set_brightness_prop bulb n h))) = false
  /\ brightness (self (snd (LightM.set_brightness_prop bulb n h))) = brightness (self h).
Proof.
  intros Hn Hrefused. unfold_light.
  replace ((1 <=? n) && (n <=? 100)) with true by (symmetry; apply andb_true_iff; lia).
  cbn. rewrite Hrefused. cbn. auto.
Qed.

Lemma brightness_failure_not_cached_witness :
  fst (LightM.set_brightness_prop Sample.unreachable 40 Sample.lamp_on)
    = Raise (cannot_connect (self Sample.lamp_on))
  /\ is_connected (self (snd (LightM.set_brightness_prop Sample.unreachable 40 Sample.lamp_on))) = false
  /\ brightness (self (snd (LightM.set_brightness_prop Sample.unreachable 40 Sample.lamp_on)))
     = brightness (self Sample.lamp_on).
Proof.
  apply (brightness_failure_not_cached Sample.unreachable Sample.lamp_on 40); [lia | reflexivity].
Defined.

(** C6. For every brightness [n], the setter issues the device command
    exactly when [1 <= n <= 100], and with a bulb that takes the command it
    returns normally exactly then; for every other [n] it raises the
    [ValueError], issues no call, and leaves the whole Light as it was. *)
Theorem brightness_range_check (bulb : Bulb) (h : heap) (n : Z) :
  (issued (snd (LightM.set_brightness_prop bulb n h)) = (issued h ++ [set_brightness n])%list
     <-> 1 <= n <= 100)
  /\ (accepts bulb (set_brightness n) = true ->
        (fst (LightM.set_brightness_prop bulb n h) = Ok tt <-> 1 <= n <= 100))
  /\ (~ 1 <= n <= 100 ->
        LightM.set_brightness_prop bulb n h
          = (Raise (ValueError "Brightness must be between 1 and 100"), h)).
Proof.
  unfold_light.
  destruct ((1 <=? n) && (n <=? 100)) eqn:Hrange; cbn.
  - apply andb_true_iff in Hrange. assert (Hn : 1 <= n <= 100) by lia.
    split; [| split].
    + split; [intros _; exact Hn | intros _].
      destruct (accepts bulb (set_brightness n)); reflexivity.
    + intros Htaken. rewrite Htaken. cbn. split; [intros _; exact Hn | reflexivity].
    + intros Hout. contradiction.
  - apply andb_false_iff in Hrange. assert (Hout : ~ 1 <= n <= 100) by lia.
    split; [| split].
    + split; [intros Heq; exfalso | intros Hn; contradiction].
      apply (f_equal (@List.length call)) in Heq. rewrite length_app in Heq.
      cbn in Heq. lia.
    + intros _. split; [discriminate | intros Hn; contradiction].
    + intros _. reflexivity.
Qed.

Lemma brightness_range_check_witness :
  fst (LightM.set_brightness_prop Sample.responsive 100 Sample.lamp) = Ok tt
  /\ LightM.set_brightness_prop Sample.responsive 101 Sample.lamp
     = (Raise (ValueError "Brightness must be between 1 and 100"), Sample.lamp).
Proof.
  destruct (brightness_range_check Sample.responsive Sample.lamp 100) as (_ & Hok & _).
  destruct (brightness_range_check Sample.responsive Sample.lamp 101) as (_ & _ & Hbad).
  split; [apply Hok; [reflexivity | lia] | apply Hbad; lia].
Defined.

(** C7. For every Light, with a bulb that takes the command, turning the
    power off issues "turn off", records [on = false] and clears the effect
    (flag, name and parameters), whatever [on] was before; turning it on
    issues "turn on", records [on = true] and leaves the effect as it was. *)
Theorem power_off_clears_effect (bulb : Bulb) (h : heap) :
  (accepts bulb turn_off = true ->
     let r := LightM.set_on_prop bulb false h in
     fst r = Ok tt
     /\ issued (snd r) = (issued h ++ [turn_off])%list
     /\ on (self (snd r)) = false
     /\ effect_cleared (self (snd r)))
  /\ (accepts bulb turn_on = true ->
     let r := LightM.set_on_prop bulb true h in
     fst r = Ok tt
     /\ issued (snd r) = (issued h ++ [turn_on])%list
     /\ on (self (snd r)) = true
     /\ is_flowing (self (snd r)) = is_flowing (self h)
     /\ effect (self (snd r)) = effect (self h)
     /\ effect_props (self (snd r)) = effect_props (self h)).
Proof.
  split; intros Htaken; unfold_light; cbn; rewrite Htaken; cbn;
    unfold effect_cleared; cbn; auto 10.
Qed.

Lemma power_off_clears_effect_witness :
  effect_cleared (self (snd (LightM.set_on_prop Sample.responsive false Sample.lamp_on)))
  /\ is_flowing (self (snd (LightM.set_on_prop Sample.responsive true Sample.lamp_on))) = true.
Proof.
  destruct (power_off_clears_effect Sample.responsive Sample.lamp_on) as [Hoff Hon].
  split.
  - apply Hoff. reflexivity.
  - destruct (Hon eq_refl) as (_ & _ & _ & Hflow & _). rewrite Hflow. reflexivity.
Defined.

(** Case analysis on every answer and every branch an operation depends
    on; the branches in which a handler for the transport's exception would
    meet the exception of a lookup or of [int] do not exist. *)
Ltac split_cases :=
  repeat match goal with
    | |- context [match ?x with _ => _ end] =>
        lazymatch x with
        | context [match _ with _ => _ end] => fail
        | _ => destruct x eqn:?
        end; cbn in *
    end;
  try not_from_bulb.

Lemma perform_keeps_invariant (bulb : Bulb) (o : operation) (h : heap) :
  refresh_fails (bulb, o) ->
  effect_invariant (self h) ->
  effect_invariant (self (snd (perform bulb o h))).
Proof.
  unfold refresh_fails, effect_invariant. intros Hrefresh Hinv.
  destruct o as [n | v | b | en ep |]; unfold_light; cbn in *.
  - split_cases; try exact Hinv; cbn;
      (split; [discriminate | intros [x Hx]; discriminate]).
  - destruct v; cbn; split_cases; try exact Hinv; cbn;
      (split; [discriminate | intros [x Hx]; discriminate]).
  - destruct b; cbn; split_cases; try exact Hinv; cbn;
      (split; [discriminate | intros [x Hx]; discriminate]).
  - destruct en; cbn; split_cases; try exact Hinv; cbn;
      try (split; [discriminate | intros [x Hx]; discriminate]);
      (split; [intros _; eexists; reflexivity | reflexivity]).
  - rewrite (Hrefresh eq_refl). cbn.
    split; [discriminate | intros [x Hx]; discriminate].
Qed.

Lemma run_keeps_invariant (history : list (Bulb * operation)) :
  forall h : heap,
    Forall refresh_fails history ->
    effect_invariant (self h) ->
    effect_invariant (self (run history h)).
Proof.
  induction history as [| [bulb o] rest IH]; intros h Hall Hinv; cbn.
  - exact Hinv.
  - inversion Hall as [| step steps Hstep Hrest]; subst.
    apply IH; [exact Hrest |]. apply perform_keeps_invariant; assumption.
Qed.

(** C1 (as amended). The invariant "[is_flowing] is true iff an effect name
    is recorded" holds after every history of [set_effect], power,
    brightness and colour commands and unanswered refresh ticks, whatever
    the bulb does; a refresh tick that is answered and returns sets
    [is_flowing] to the flag the bulb reports and, when that flag says a
    flow is running, records no effect name of its own: the name is the one
    cached before, if any. *)
Theorem effect_invariant_commands
    (history : list (Bulb * operation)) (h : heap) (bulb : Bulb) :
  effect_invariant (self h) ->
  Forall refresh_fails history ->
  effect_invariant (self (run history h))
  /\ (accepts bulb get_properties = true ->
      fst (perform bulb Refresh (run history h)) = Ok tt ->
      exists flowing : option pystr,
        reported bulb !! "flowing" = Some flowing
        /\ is_flowing (self (run [(bulb, Refresh)] (run history h))) = eq_str flowing "1"
        /\ (flowing = Some (pystr_of_string "1") ->
            effect (self (run [(bulb, Refresh)] (run history h)))
              = effect (self (run history h)))).
Proof.
  intros Hinv Hall. split.
  - apply run_keeps_invariant; assumption.
  - intros Hanswer. cbn [run]. unfold_light. cbn. rewrite Hanswer. cbn.
    split_cases; intros Hreturns; try discriminate Hreturns.
    match goal with
    | H : getitem (reported bulb) "flowing" = Ok ?f |- _ =>
        exists f; apply getitem_Ok in H; auto
    end.
Qed.

Lemma effect_invariant_commands_witness :
  let history :=
    [(Sample.responsive, SetEffect (Some "disco") (Some {["count" := 2]}));
     (Sample.unreachable, Refresh);
     (Sample.responsive, SetEffect (Some "police") None);
     (Sample.responsive, SetOn true)] in
  effect_invariant (self (run history Sample.lamp))
  /\ is_flowing (self (run [(Sample.responsive, Refresh)] (run history Sample.lamp))) = true
  /\ effect (self (run [(Sample.responsive, Refresh)] (run history Sample.lamp)))
     = effect (self (run history Sample.lamp)).
Proof.
  intros history.
  destruct (effect_invariant_commands history Sample.lamp Sample.responsive) as [Hinv Hrefresh].
  - split; [discriminate | intros [x Hx]; discriminate].
  - repeat constructor; intros Hop; solve [discriminate Hop | reflexivity].
  - destruct (Hrefresh eq_refl eq_refl) as (flowing & Hreported & Hflag & Hname).
    vm_compute in Hreported. injection Hreported as <-.
    split; [exact Hinv | split; [exact Hflag | exact (Hname eq_refl)]].
Defined.

(** C1, the claim as stated fails: the first refresh tick of a new Light that
    reads [flowing = "1"] leaves [is_flowing] true and no effect recorded. *)
Lemma refresh_breaks_effect_invariant :
  Sample.lamp_on = run [(Sample.responsive, Refresh)] Sample.lamp
  /\ reported Sample.responsive !! "flowing" = Some (Some (pystr_of_string "1"))
  /\ fst (perform Sample.responsive Refresh Sample.lamp) = Ok tt
  /\ is_flowing (self Sample.lamp_on) = true
  /\ effect (self Sample.lamp_on) = None.
Proof. vm_compute. repeat split. Qed.

(** A call list does not equal itself with one more call. *)
Lemma issued_not_longer (cs : list call) (c : call) : cs <> (cs ++ [c])%list.
Proof.
  intros Heq. apply (f_equal (@List.length call)) in Heq.
  rewrite length_app in Heq. cbn in Heq. lia.
Qed.

Ltac same_call :=
  match goal with
  | H : (?cs ++ [?c])%list = (?cs ++ [?d])%list |- _ =>
      apply app_inj_tail in H; destruct H as [_ H];
      first [discriminate H | injection H as ?; subst | subst]
  | H : ?cs = (?cs ++ [?c])%list |- _ => exfalso; exact (issued_not_longer cs c H)
  end.

(** C2 (as amended). When an operation takes a connected Light to
    [is_connected = false], and whenever the bulb refuses the call an
    operation issues, the effect is cleared (flag false, no name, no
    parameters) while [on], [brightness] and [color] keep the values cached
    before the operation. *)
Theorem disconnect_clears_effect (bulb : Bulb) (o : operation) (h : heap) :
  (is_connected (self h) = true ->
   is_connected (self (snd (perform bulb o h))) = false ->
   effect_cleared (self (snd (perform bulb o h)))
   /\ same_live_fields (self h) (self (snd (perform bulb o h))))
  /\ (forall c : call,
        issued (snd (perform bulb o h)) = (issued h ++ [c])%list ->
        accepts bulb c = false ->
        is_connected (self (snd (perform bulb o h))) = false
        /\ effect_cleared (self (snd (perform bulb o h)))
        /\ same_live_fields (self h) (self (snd (perform bulb o h)))).
Proof.
  unfold effect_cleared, same_live_fields.
  split.
  - intros Hbefore.
    destruct o as [n | v | b | en ep |]; unfold_light; cbn;
      try destruct v; try destruct b; try destruct en; cbn;
      split_cases; cbn; intros Hafter; try congruence; auto 10.
  - intros c.
    destruct o as [n | v | b | en ep |]; unfold_light; cbn;
      try destruct v; try destruct b; try destruct en; cbn;
      split_cases; cbn; intros Hissued Hrefused;
      try same_call; try congruence; auto 10.
Qed.

Lemma disconnect_clears_effect_witness :
  let after := snd (perform Sample.unreachable (SetOn false) Sample.lamp_on) in
  is_connected (self Sample.lamp_on) = true
  /\ is_connected (self after) = false
  /\ effect_cleared (self after)
  /\ same_live_fields (self Sample.lamp_on) (self after).
Proof.
  intros after.
  destruct (disconnect_clears_effect Sample.unreachable (SetOn false) Sample.lamp_on)
    as [Hbecomes Hrefused].
  destruct (Hrefused turn_off eq_refl eq_refl) as (Hdis & _).
  repeat split; try reflexivity; apply Hbecomes; reflexivity.
Defined.

(** C2, the claim as stated fails: a Light that is on and loses its bulb at a
    refresh tick is disconnected and still has [on = true]. *)
Lemma disconnect_keeps_on :
  on (self Sample.lamp_on) = true
  /\ accepts Sample.unreachable get_properties = false
  /\ is_connected (self (run [(Sample.unreachable, Refresh)] Sample.lamp_on)) = false
  /\ on (self (run [(Sample.unreachable, Refresh)] Sample.lamp_on)) = true.
Proof. repeat split. Qed.

Lemma construct_unknown_keyword (cls : effect_class) (kwargs : gmap string Z) (key : string) :
  is_Some (kwargs !! key) ->
  key ∉ parameters cls ->
  construct cls kwargs = Raise TypeError.
Proof.
  intros [v Hv] Hnot. unfold construct.
  rewrite bool_decide_eq_false_2; [reflexivity |].
  intros Hall. apply Hnot. exact (Hall key v Hv).
Qed.

(** C4 (as amended). For every Light and bulb: an effect name outside the
    known set makes [set_effect] fail with the [KeyError] of the lookup, and
    a known name with a parameter dictionary holding a key that is no
    parameter of that effect makes it fail with the [LightException]
    "Props supplied to effect are incorrect"; in both cases no device call
    is issued and the Light's cached state is unchanged. *)
Theorem set_effect_rejects_bad_arguments
    (bulb : Bulb) (h : heap) (effect_name : string) (props : option (gmap string Z)) :
  (effects_map !! effect_name = None ->
   LightM.set_effect bulb (Some effect_name) props h = (Raise (KeyError effect_name), h))
  /\ (forall (cls : effect_class) (key : string),
        effects_map !! effect_name = Some cls ->
        is_Some (default ∅ props !! key) ->
        key ∉ parameters cls ->
        LightM.set_effect bulb (Some effect_name) props h
          = (Raise (LightException "Props supplied to effect are incorrect"), h)).
Proof.
  split.
  - intros Hunknown. unfold_light. unfold getitem. rewrite Hunknown. reflexivity.
  - intros cls key Hknown Hkey Hnot. unfold_light. unfold getitem. rewrite Hknown.
    rewrite (construct_unknown_keyword cls _ key Hkey Hnot). reflexivity.
Qed.

Lemma set_effect_rejects_bad_arguments_witness :
  LightM.set_effect Sample.responsive (Some "rainbow") None Sample.lamp_on
    = (Raise (KeyError "rainbow"), Sample.lamp_on)
  /\ LightM.set_effect Sample.responsive (Some "disco") (Some {["duration" := 200]}) Sample.lamp_on
    = (Raise (LightException "Props supplied to effect are incorrect"), Sample.lamp_on).
Proof.
  split.
  - apply (proj1 (set_effect_rejects_bad_arguments
                    Sample.responsive Sample.lamp_on "rainbow" None)).
    reflexivity.
  - apply (proj2 (set_effect_rejects_bad_arguments
                    Sample.responsive Sample.lamp_on "disco" (Some {["duration" := 200]}))
                 DiscoEffect "duration").
    + reflexivity.
    + exists 200. reflexivity.
    + cbn. intros Hin. apply list_elem_of_singleton in Hin. discriminate Hin.
Defined.

(** C4, the claim as stated fails: an unknown effect name ends in a
    [KeyError], which is not the [LightException] for incorrect props. *)
Lemma unknown_effect_is_key_error :
  effects_map !! "rainbow" = None
  /\ fst (LightM.set_effect Sample.responsive (Some "rainbow") None Sample.lamp_on)
     = Raise (KeyError "rainbow").
Proof. split; reflexivity. Qed.

(** C3. What the code does when [notify] gets no target: the loop runs over
    the one-element list that holds the list of default lights, asks that
    list for [start_flow], and ends in an [AttributeError]; no flow is
    started on any bulb, default or not. *)
Theorem notify_without_targets_raises
    (notify_duration : Z) (network : string -> Bulb) (lights : list Light)
    (level : Z * Z * Z) (net : list (string * call)) :
  notify notify_duration network lights level [] net
    = (Raise (AttributeError "'list' object has no attribute 'start_flow'"), net)
  /\ pulsed (snd (notify notify_duration network lights level [] [])) = [].
Proof.
  destruct level as [[r g] b]. split; reflexivity.
Qed.

Example notify_warning_pulses_nothing :
  default_lights [self Sample.lamp; Sample.desk] = [self Sample.lamp]
  /\ pulsed (snd (notify 500 (fun _ => Sample.responsive) [self Sample.lamp; Sample.desk]
                         NotificationLevel.WARNING [] [])) = [].
Proof. split; reflexivity. Qed.






(** *** Hexadecimal text: digits, bytes and six-digit strings *)

Lemma hex_char_digit (n : Z) :
  0 <= n < 16 ->
  Hex.is_hex_digit (Hex.hex_char n) = true
  /\ Hex.lower_char (Hex.hex_char n) = Hex.hex_char n
  /\ Hex.digit_value (Hex.hex_char n) = Some n.
Proof.
  intros Hn.
  assert (Hk : n = Z.of_nat (Z.to_nat n)) by lia.
  assert (Hlt : (Z.to_nat n < 16)%nat) by lia.
  revert Hk Hlt. generalize (Z.to_nat n) as k. intros k -> Hlt.
  do 16 (destruct k as [| k]; [repeat split |]). lia.
Qed.

Lemma digit_value_bound (c : ascii) (d : Z) :
  Hex.digit_value c = Some d -> 0 <= d < 16.
Proof.
  unfold Hex.digit_value.
  destruct (Hex.in_range 48 57 c) eqn:Hr;
    [| clear Hr; destruct (Hex.in_range 97 102 c) eqn:Hr;
       [| clear Hr; destruct (Hex.in_range 65 70 c) eqn:Hr; [| discriminate]]];
    intros [= Hd]; unfold Hex.in_range in Hr;
    apply andb_true_iff in Hr; destruct Hr as [Hlo Hhi];
    apply Nat.leb_le in Hlo, Hhi; lia.
Qed.

Lemma format_02x_byte (v : Z) :
  0 <= v <= 255 ->
  Hex.format_02x v = [Hex.hex_char (v / 16); Hex.hex_char (v mod 16)].
Proof.
  intros Hv.
  assert (Hall : forallb (fun k : nat =>
                    bool_decide (Hex.format_02x (Z.of_nat k)
                                 = [Hex.hex_char (Z.of_nat k / 16);
                                    Hex.hex_char (Z.of_nat k mod 16)]))
                   (seq 0 256) = true) by (vm_compute; reflexivity).
  rewrite forallb_forall in Hall.
  specialize (Hall (Z.to_nat v)).
  rewrite Z2Nat.id in Hall by lia.
  apply bool_decide_eq_true in Hall; [exact Hall |].
  apply in_seq. lia.
Qed.

Lemma int16_from_bound (cs : list ascii) :
  forall acc v : Z,
    0 <= acc ->
    Hex.int16_from acc cs = Ok v ->
    0 <= v < (acc + 1) * 16 ^ Z.of_nat (List.length cs).
Proof.
  induction cs as [| c cs IH]; intros acc v Hacc; cbn [Hex.int16_from List.length].
  - intros [= <-]. cbn. lia.
  - destruct (Hex.digit_value c) as [d |] eqn:Hd; [| discriminate].
    apply digit_value_bound in Hd. intros Hv.
    apply IH in Hv; [| lia].
    rewrite Nat2Z.inj_succ, Z.pow_succ_r by lia.
    assert (0 < 16 ^ Z.of_nat (List.length cs)) by (apply Z.pow_pos_nonneg; lia).
    nia.
Qed.

Lemma double_each_length (cs : list ascii) :
  List.length (Hex.double_each cs) = (2 * List.length cs)%nat.
Proof.
  unfold Hex.double_each.
  induction cs as [| c cs IH]; [reflexivity |].
  cbn [flat_map app List.length]. rewrite IH. lia.
Qed.

(** A line feed is no hexadecimal digit: digits are all matched. *)
Lemma before_end_digits (cs : list ascii) :
  forallb Hex.is_hex_digit cs = true -> Hex.before_end cs = cs.
Proof.
  induction cs as [| c rest IH]; [reflexivity |].
  cbn [forallb Hex.before_end]. intros Hall.
  apply andb_true_iff in Hall. destruct Hall as [Hc Hrest].
  destruct rest as [| d rest'].
  - destruct (Ascii.eqb c "010") eqn:Hfeed; [| reflexivity].
    apply Ascii.eqb_eq in Hfeed. subst c. discriminate Hc.
  - rewrite (IH Hrest). reflexivity.
Qed.

Lemma normalize_hex_shape (s t : string) :
  Hex.normalize_hex s = Ok t ->
  exists ds : list ascii,
    list_ascii_of_string t = "#"%char :: ds /\ List.length ds = 6%nat.
Proof.
  unfold Hex.normalize_hex.
  destruct (list_ascii_of_string s) as [| c rest]; [discriminate |].
  cbv zeta. generalize (Hex.before_end rest) as digits. intros digits.
  destruct (Ascii.eqb c "#" && forallb Hex.is_hex_digit digits
            && ((List.length digits =? 3)%nat || (List.length digits =? 6)%nat)) eqn:Hok;
    [| discriminate].
  intros [= <-]. cbn [list_ascii_of_string].
  rewrite list_ascii_of_string_of_list_ascii.
  eexists. split; [reflexivity |].
  rewrite length_map.
  apply andb_true_iff in Hok. destruct Hok as [_ Hlen].
  destruct (List.length digits =? 3)%nat eqn:H3.
  - apply Nat.eqb_eq in H3. rewrite double_each_length. lia.
  - cbn in Hlen. apply Nat.eqb_eq in Hlen. exact Hlen.
Qed.

Lemma land_255_channel (v : Z) : channel_ok (Z.land v 255).
Proof.
  unfold channel_ok.
  assert (Hmod : Z.land v 255 = v mod 256)
    by (change 255 with (Z.ones 8); rewrite Z.land_ones by lia; reflexivity).
  rewrite Hmod. pose proof (Z.mod_pos_bound v 256). lia.
Qed.

Lemma from_rgb_int_in_range (x : Z) : channels_in_range (ColorM.from_rgb_int x).
Proof. repeat split; apply land_255_channel. Qed.

Lemma from_hex_in_range (s : string) (c : Color) :
  ColorM.from_hex s = Ok c -> channels_in_range c.
Proof.
  unfold ColorM.from_hex, Hex.hex_to_rgb.
  destruct (Hex.normalize_hex s) as [t | e] eqn:Hs;
    [| destruct (is_ValueError e); discriminate].
  destruct (Hex.normalize_hex t) as [t' | e] eqn:Ht;
    [| destruct (is_ValueError e); discriminate].
  apply normalize_hex_shape in Ht. destruct Ht as (ds & -> & Hlen). cbn [List.tl].
  destruct (Hex.int16 ds) as [v | e] eqn:Hv;
    [| destruct (is_ValueError e); discriminate].
  intros [= <-].
  assert (Hb : 0 <= v < 2 ^ 24).
  { unfold Hex.int16 in Hv. destruct ds as [| d ds']; [discriminate |].
    apply int16_from_bound in Hv; [| lia]. rewrite Hlen in Hv. exact Hv. }
  unfold channels_in_range; cbn [red green blue].
  split; [| split; apply land_255_channel].
  unfold channel_ok. rewrite Z.shiftr_div_pow2 by lia.
  split; [apply Z.div_pos; lia |].
  assert (v / 2 ^ 16 < 256) by (apply Z.div_lt_upper_bound; lia). lia.
Qed.

Lemma from_hex_six_digits (c1 c2 c3 c4 c5 c6 : ascii) (n1 n2 n3 n4 n5 n6 : Z) :
  digit_of c1 n1 -> digit_of c2 n2 -> digit_of c3 n3 ->
  digit_of c4 n4 -> digit_of c5 n5 -> digit_of c6 n6 ->
  ColorM.from_hex (string_of_list_ascii ["#"%char; c1; c2; c3; c4; c5; c6])
    = Ok (let v := six_digits n1 n2 n3 n4 n5 n6 in
          mkColor (Z.shiftr v 16) (Z.land (Z.shiftr v 8) 255) (Z.land v 255)).
Proof.
  intros (H1 & L1 & D1) (H2 & L2 & D2) (H3 & L3 & D3)
         (H4 & L4 & D4) (H5 & L5 & D5) (H6 & L6 & D6).
  assert (Hnorm : Hex.normalize_hex (string_of_list_ascii ["#"%char; c1; c2; c3; c4; c5; c6])
                  = Ok (string_of_list_ascii ["#"%char; c1; c2; c3; c4; c5; c6])).
  { unfold Hex.normalize_hex. rewrite list_ascii_of_string_of_list_ascii.
    rewrite before_end_digits
      by (cbn [forallb]; rewrite H1, H2, H3, H4, H5, H6; reflexivity).
    cbn [forallb List.length Nat.eqb orb andb List.map].
    rewrite H1, H2, H3, H4, H5, H6, L1, L2, L3, L4, L5, L6. reflexivity. }
  unfold ColorM.from_hex, Hex.hex_to_rgb. rewrite !Hnorm.
  rewrite list_ascii_of_string_of_list_ascii.
  cbn [List.tl Hex.int16 Hex.int16_from].
  rewrite D1, D2, D3, D4, D5, D6.
  cbv zeta. unfold six_digits.
  match goal with
  | |- context [Z.shiftr ?v 16] =>
      replace v with (n1 * 1048576 + n2 * 65536 + n3 * 4096 + n4 * 256 + n5 * 16 + n6) by lia
  end.
  reflexivity.
Qed.

Lemma byte_digits (v : Z) :
  channel_ok v ->
  Hex.format_02x (Hex.normalize_integer_rgb v)
    = [Hex.hex_char (v / 16); Hex.hex_char (v mod 16)]
  /\ digit_of (Hex.hex_char (v / 16)) (v / 16)
  /\ digit_of (Hex.hex_char (v mod 16)) (v mod 16).
Proof.
  unfold channel_ok, digit_of. intros Hv.
  assert (Hclamp : Hex.normalize_integer_rgb v = v).
  { unfold Hex.normalize_integer_rgb.
    destruct (Z.ltb_spec v 0); [lia |]. destruct (Z.ltb_spec 255 v); [lia | reflexivity]. }
  rewrite Hclamp. split; [apply format_02x_byte; exact Hv |].
  split; apply hex_char_digit; Z.div_mod_to_equations; lia.
Qed.

Lemma unpack_six_digits (r g b : Z) :
  channel_ok r -> channel_ok g -> channel_ok b ->
  let v := six_digits (r / 16) (r mod 16) (g / 16) (g mod 16) (b / 16) (b mod 16) in
  Z.shiftr v 16 = r /\ Z.land (Z.shiftr v 8) 255 = g /\ Z.land v 255 = b.
Proof.
  unfold channel_ok. intros Hr Hg Hb. cbv zeta.
  assert (Hv : six_digits (r / 16) (r mod 16) (g / 16) (g mod 16) (b / 16) (b mod 16)
               = r * 65536 + g * 256 + b)
    by (unfold six_digits; Z.div_mod_to_equations; lia).
  rewrite Hv.
  assert (Hland : forall x, Z.land x 255 = x mod 256)
    by (intros x; change 255 with (Z.ones 8); apply Z.land_ones; lia).
  rewrite !Hland, !Z.shiftr_div_pow2 by lia.
  change (2 ^ 16) with 65536. change (2 ^ 8) with 256.
  repeat split; Z.div_mod_to_equations; lia.
Qed.

(** The hexadecimal text of a colour with channels in range parses back to
    that colour. *)
Lemma from_hex_of_hex (c : Color) :
  channels_in_range c -> ColorM.from_hex (ColorM.hex c) = Ok c.
Proof.
  destruct c as [r g b]. intros (Hr & Hg & Hb). cbn [red green blue] in *.
  unfold ColorM.hex, ColorM.rgb_tuple, Hex.rgb_to_hex. cbn [red green blue].
  destruct (byte_digits r Hr) as (-> & Dr1 & Dr2).
  destruct (byte_digits g Hg) as (-> & Dg1 & Dg2).
  destruct (byte_digits b Hb) as (-> & Db1 & Db2).
  cbn [app].
  rewrite (from_hex_six_digits _ _ _ _ _ _ _ _ _ _ _ _ Dr1 Dr2 Dg1 Dg2 Db1 Db2).
  pose proof (unpack_six_digits r g b Hr Hg Hb) as Hunpack.
  cbv zeta in *. destruct Hunpack as (-> & -> & ->). reflexivity.
Qed.

Lemma land_above_below (hi lo k : Z) :
  0 <= k -> 0 <= lo < 2 ^ k -> Z.land (hi * 2 ^ k) lo = 0.
Proof.
  intros Hk Hlo. apply Z.bits_inj'. intros n Hn.
  rewrite Z.land_spec, Z.bits_0.
  destruct (Z.lt_ge_cases n k) as [Hlow | Hhigh].
  - rewrite Z.mul_pow2_bits_low by lia. reflexivity.
  - destruct (Z.eq_dec lo 0) as [-> | Hpos].
    + rewrite Z.bits_0. apply andb_false_r.
    + rewrite (Z.bits_above_log2 lo n); [apply andb_false_r | lia |].
      apply Z.lt_le_trans with k; [| exact Hhigh].
      apply Z.log2_lt_pow2; lia.
Qed.

Lemma lor_above_below (hi lo k : Z) :
  0 <= k -> 0 <= lo < 2 ^ k -> Z.lor (hi * 2 ^ k) lo = hi * 2 ^ k + lo.
Proof.
  intros Hk Hlo. pose proof (land_above_below hi lo k Hk Hlo) as Hland.
  rewrite (Z.add_nocarry_lxor _ _ Hland). symmetry. apply Z.lxor_lor. exact Hland.
Qed.

Lemma packed_from_rgb_int (x : Z) :
  0 <= x <= 16777215 -> packed (ColorM.from_rgb_int x) = x.
Proof.
  intros Hx. unfold packed, ColorM.from_rgb_int. cbn [red green blue].
  assert (Hland : forall y, Z.land y 255 = y mod 256)
    by (intros y; change 255 with (Z.ones 8); apply Z.land_ones; lia).
  rewrite !Hland, !Z.shiftr_div_pow2, !Z.shiftl_mul_pow2 by lia.
  set (r := (x / 2 ^ 16) mod 256). set (g := (x / 2 ^ 8) mod 256). set (b := x mod 256).
  assert (Hr : 0 <= r < 256) by (apply Z.mod_pos_bound; lia).
  assert (Hg : 0 <= g < 256) by (apply Z.mod_pos_bound; lia).
  assert (Hb : 0 <= b < 256) by (apply Z.mod_pos_bound; lia).
  rewrite (lor_above_below g b 8) by (change (2 ^ 8) with 256; lia).
  rewrite (lor_above_below r (g * 2 ^ 8 + b) 16)
    by (change (2 ^ 8) with 256; change (2 ^ 16) with 65536; lia).
  subst r g b. change (2 ^ 16) with 65536. change (2 ^ 8) with 256.
  Z.div_mod_to_equations. lia.
Qed.

(** C8 (as amended). A Color made from a packed integer, whatever the
    integer, and a Color parsed from a hex string have every channel in
    [0, 255]; an RGB triple handed to the [color] setter is sent to the
    bulb and cached with its three components as given, unchecked. *)
Theorem color_channels
    (x : Z) (s : string) (c : Color) (bulb : Bulb) (h : heap) (r g b : Z) :
  channels_in_range (ColorM.from_rgb_int x)
  /\ (ColorM.from_hex s = Ok c -> channels_in_range c)
  /\ (accepts bulb (set_rgb r g b) = true ->
      LightM.set_color_prop bulb (ATuple [r; g; b]) h
        = (Ok tt, mkHeap (with_color (Some (mkColor r g b)) (self h))
                         (issued h ++ [set_rgb r g b])%list)).
Proof.
  split; [apply from_rgb_int_in_range | split; [apply from_hex_in_range |]].
  intros Htaken. unfold_light. cbn. rewrite Htaken. reflexivity.
Qed.

Lemma color_channels_witness :
  channels_in_range (ColorM.from_rgb_int (-1))
  /\ channels_in_range (mkColor 0 255 170)
  /\ color (self (snd (LightM.set_color_prop Sample.responsive (ATuple [10; 20; 30]) Sample.lamp)))
     = Some (mkColor 10 20 30).
Proof.
  destruct (color_channels (-1) "#0Fa" (mkColor 0 255 170)
              Sample.responsive Sample.lamp 10 20 30) as (Hint & Hhex & Htuple).
  split; [exact Hint | split; [apply Hhex; reflexivity |]].
  rewrite (Htuple eq_refl). reflexivity.
Defined.

(** C8, the claim as stated fails: the triple (300, -1, 999) handed to the
    [color] setter becomes the cached Color, red 300 and all. *)
Lemma color_tuple_out_of_range :
  fst (LightM.set_color_prop Sample.responsive (ATuple [300; -1; 999]) Sample.lamp) = Ok tt
  /\ color (self (snd (LightM.set_color_prop Sample.responsive (ATuple [300; -1; 999]) Sample.lamp)))
     = Some (mkColor 300 (-1) 999)
  /\ (300 <=? 255) = false.
Proof. repeat split. Qed.

(** C9. For every [x] in [0, 0xFFFFFF], the Color of [x], written as a hex
    string and parsed back, is the same Color, and its channels pack to
    [x]. *)
Theorem hex_round_trip (x : Z) :
  0 <= x <= 16777215 ->
  ColorM.from_hex (ColorM.hex (ColorM.from_rgb_int x)) = Ok (ColorM.from_rgb_int x)
  /\ packed (ColorM.from_rgb_int x) = x.
Proof.
  intros Hx. split.
  - apply from_hex_of_hex, from_rgb_int_in_range.
  - apply packed_from_rgb_int. exact Hx.
Qed.

Lemma hex_round_trip_witness :
  ColorM.from_hex (ColorM.hex (ColorM.from_rgb_int 65280)) = Ok (ColorM.from_rgb_int 65280)
  /\ packed (ColorM.from_rgb_int 65280) = 65280.
Proof. apply (hex_round_trip 65280). lia. Defined.

Example hex_of_green : ColorM.hex (ColorM.from_rgb_int 65280) = "#00ff00".
Proof. reflexivity. Qed.

Example from_hex_three_digits : ColorM.from_hex "#0Fa" = Ok (mkColor 0 255 170).
Proof. reflexivity. Qed.

Example from_hex_without_hash :
  ColorM.from_hex "00ff00" = Raise (ValueError "Hex color value supplied is invalid").
Proof. reflexivity. Qed.

Example set_effect_disco_twice :
  LightM.set_effect Sample.responsive (Some "disco") (Some {["count" := 2]}) Sample.lamp
    = (Ok tt,
       mkHeap (with_effect_props {["count" := 2]}
                 (with_effect (Some "disco") (with_is_flowing true (self Sample.lamp))))
              [start_flow (mkFlow 2 disco)]).
Proof. reflexivity. Qed.

(** * Further properties of the code *)

(** ** set_effect *)

Lemma construct_accepted (cls : effect_class) (kwargs : gmap string Z) :
  keys_accepted cls kwargs ->
  exists e : LightEffect,
    construct cls kwargs = Ok e
    /\ flow_count (get_flow e) = default 0 (kwargs !! "count").
Proof.
  intros Hkeys. unfold construct, keys_accepted in *.
  rewrite bool_decide_eq_true_2 by exact Hkeys.
  destruct cls; eexists; split; reflexivity.
Qed.

(** X1. With a known effect name, a parameter dictionary whose keys are
    all parameters of that effect, and a bulb that takes the flow,
    [set_effect] returns normally, issues exactly one [start_flow] whose
    repeat count is the ["count"] given (0, run forever, when absent), and
    records the flag, the name and the dictionary; nothing else of the Light
    changes. *)
Theorem set_effect_starts_flow
    (bulb : Bulb) (h : heap) (effect_name : string) (cls : effect_class)
    (props : option (gmap string Z)) :
  effects_map !! effect_name = Some cls ->
  keys_accepted cls (default ∅ props) ->
  (forall flow : Flow, accepts bulb (start_flow flow) = true) ->
  exists flow : Flow,
    flow_count flow = default 0 (default ∅ props !! "count")
    /\ LightM.set_effect bulb (Some effect_name) props h
       = (Ok tt,
          mkHeap (with_effect_props (default ∅ props)
                    (with_effect (Some effect_name) (with_is_flowing true (self h))))
                 (issued h ++ [start_flow flow])%list).
Proof.
  intros Hknown Hkeys Htaken.
  destruct (construct_accepted cls _ Hkeys) as (e & Hbuilt & Hcount).
  exists (get_flow e). split; [exact Hcount |].
  unfold_light. unfold getitem. rewrite Hknown, Hbuilt. cbn.
  rewrite Htaken. reflexivity.
Qed.

Lemma set_effect_starts_flow_witness :
  exists flow : Flow,
    flow_count flow = 4
    /\ LightM.set_effect Sample.responsive (Some "police")
         (Some {["count" := 4; "duration" := 250]}) Sample.lamp_on
       = (Ok tt,
          mkHeap (with_effect_props {["count" := 4; "duration" := 250]}
                    (with_effect (Some "police") (with_is_flowing true (self Sample.lamp_on))))
                 (issued Sample.lamp_on ++ [start_flow flow])%list).
Proof.
  destruct (set_effect_starts_flow Sample.responsive Sample.lamp_on "police" PoliceEffect
              (Some {["count" := 4; "duration" := 250]}))
    as (flow & Hcount & Hrun).
  - reflexivity.
  - apply (bool_decide_eq_true_1
             (map_Forall (fun (k : string) (_ : Z) => k ∈ parameters PoliceEffect)
                         (default ∅ (Some ({["count" := 4; "duration" := 250]} : gmap string Z))))).
    vm_compute. reflexivity.
  - intros flow. reflexivity.
  - exists flow. split; [rewrite Hcount; vm_compute; reflexivity | exact Hrun].
Defined.

(** X2. [set_effect(None)] with a bulb that takes [stop_flow] issues that
    one call and clears flag, name and parameters, whether or not an effect
    was running; connection, power, brightness and colour stay. *)
Theorem set_effect_none_stops_flow (bulb : Bulb) (h : heap) (props : option (gmap string Z)) :
  accepts bulb stop_flow = true ->
  LightM.set_effect bulb None props h
    = (Ok tt,
       mkHeap (with_effect_props ∅ (with_effect None (with_is_flowing false (self h))))
              (issued h ++ [stop_flow])%list).
Proof.
  intros Htaken. unfold_light. cbn. rewrite Htaken. reflexivity.
Qed.

Lemma set_effect_none_stops_flow_witness :
  LightM.set_effect Sample.responsive None None Sample.lamp_on
    = (Ok tt,
       mkHeap (with_effect_props ∅
                 (with_effect None (with_is_flowing false (self Sample.lamp_on))))
              (issued Sample.lamp_on ++ [stop_flow])%list).
Proof.
  apply (set_effect_none_stops_flow Sample.responsive Sample.lamp_on None). reflexivity.
Defined.

(** ** Failures, refresh ticks and what no operation changes *)

(** X3. When the bulb refuses the call a command issues (brightness,
    colour, power or effect), the command raises the [LightException] that
    names the Light's address. *)
Theorem refused_command_raises (bulb : Bulb) (o : operation) (h : heap) (c : call) :
  o <> Refresh ->
  issued (snd (perform bulb o h)) = (issued h ++ [c])%list ->
  accepts bulb c = false ->
  fst (perform bulb o h) = Raise (cannot_connect (self h)).
Proof.
  unfold cannot_connect. intros Hcommand.
  destruct o as [n | v | b | en ep |]; [| | | | congruence]; clear Hcommand;
    unfold_light; cbn;
    try destruct v; try destruct b; try destruct en; cbn;
    split_cases; cbn; intros Hissued Hrefused;
    try same_call; try congruence; auto.
Qed.

Lemma refused_command_raises_witness :
  fst (perform Sample.unreachable (SetColor (AStr "#ff8800")) Sample.lamp_on)
    = Raise (LightException "Cannot connect to the smart bulb with IP: 192.168.1.10").
Proof.
  apply (refused_command_raises Sample.unreachable (SetColor (AStr "#ff8800"))
           Sample.lamp_on (set_rgb 255 136 0)); [discriminate | reflexivity | reflexivity].
Defined.

(** X4. A refresh tick issues exactly one call, [get_properties], and
    catches the transport's exception only.  With a bulb that does not
    answer it returns normally and leaves the Light disconnected, the
    effect cleared.  With a bulb that answers, the Light is connected; when
    every property is in the answer and [int] reads the brightness and the
    colour, the tick returns and the brightness, power, colour and flow
    flag are the ones reported, whatever was cached, the colour with every
    channel in [0, 255].  When the brightness is missing or [int] refuses
    it, the tick raises that exception with nothing but [is_connected]
    written; when that happens to the colour, brightness and power are
    written and colour and flow flag are not.  The exception is a
    [KeyError], a [TypeError] or a [ValueError]. *)
Theorem refresh_outcome (bulb : Bulb) (h : heap) :
  let r := LightM.refresh_props bulb h in
  let props := reported bulb in
  issued (snd r) = (issued h ++ [get_properties])%list
  /\ is_connected (self (snd r)) = accepts bulb get_properties
  /\ (accepts bulb get_properties = false ->
      fst r = Ok tt /\ effect_cleared (self (snd r)))
  /\ (accepts bulb get_properties = true ->
      (forall (b c : Z) (power flowing : option pystr),
         int_of props "bright" = Ok b ->
         getitem props "power" = Ok power ->
         int_of props "rgb" = Ok c ->
         getitem props "flowing" = Ok flowing ->
         fst r = Ok tt
         /\ brightness (self (snd r)) = b
         /\ on (self (snd r)) = eq_str power "on"
         /\ color (self (snd r)) = Some (ColorM.from_rgb_int c)
         /\ is_flowing (self (snd r)) = eq_str flowing "1"
         /\ channels_in_range (ColorM.from_rgb_int c))
      /\ (forall e : exn,
            int_of props "bright" = Raise e ->
            fst r = Raise e
            /\ self (snd r) = with_is_connected true (self h))
      /\ (forall (b : Z) (power : option pystr) (e : exn),
            int_of props "bright" = Ok b ->
            getitem props "power" = Ok power ->
            int_of props "rgb" = Raise e ->
            fst r = Raise e
            /\ self (snd r)
               = with_on (eq_str power "on")
                   (with_brightness b (with_is_connected true (self h)))))
  /\ (forall e : exn,
        fst r = Raise e ->
        e = TypeError \/ (exists msg : string, e = ValueError msg)
        \/ (exists key : string, e = KeyError key)).
Proof.
  cbv zeta. unfold int_of. unfold_light. cbn.
  destruct (accepts bulb get_properties) eqn:Hanswer; cbn.
  - split; [| split; [| split; [| split]]].
    + split_cases; reflexivity.
    + split_cases; reflexivity.
    + discriminate.
    + intros _. split; [| split].
      * intros b c power flowing Hbright Hpower Hrgb Hflowing.
        destruct (getitem (reported bulb) "bright") as [bright |]; [| discriminate].
        rewrite Hbright, Hpower. cbn.
        destruct (getitem (reported bulb) "rgb") as [rgb |]; [| discriminate].
        rewrite Hrgb, Hflowing. cbn.
        repeat split; try reflexivity; apply land_255_channel.
      * intros e Hbright.
        destruct (getitem (reported bulb) "bright") as [bright | e0] eqn:Hitem.
        -- rewrite Hbright. cbn. rewrite (int_not_from_bulb _ _ Hbright).
           split; reflexivity.
        -- injection Hbright as ->. cbn. rewrite (getitem_not_from_bulb _ _ _ Hitem).
           split; reflexivity.
      * intros b power e Hbright Hpower Hrgb.
        destruct (getitem (reported bulb) "bright") as [bright |]; [| discriminate].
        rewrite Hbright, Hpower. cbn.
        destruct (getitem (reported bulb) "rgb") as [rgb | e0] eqn:Hitem.
        -- rewrite Hrgb. cbn. rewrite (int_not_from_bulb _ _ Hrgb).
           split; reflexivity.
        -- injection Hrgb as ->. cbn. rewrite (getitem_not_from_bulb _ _ _ Hitem).
           split; reflexivity.
    + intros e. split_cases; intros [= <-];
        repeat match goal with
          | H : getitem _ _ = Raise _ |- _ => apply getitem_Raise in H; subst
          | H : Py.int _ = Raise _ |- _ => apply int_Raise in H; destruct H as [-> | [msg ->]]
          end; eauto.
  - split; [reflexivity |]. split; [reflexivity |].
    split; [intros _; split; [reflexivity | repeat split] |].
    split; [discriminate | discriminate].
Qed.

Lemma refresh_outcome_witness :
  (fst (LightM.refresh_props Sample.responsive Sample.lamp) = Ok tt
   /\ brightness (self (snd (LightM.refresh_props Sample.responsive Sample.lamp))) = 50
   /\ color (self (snd (LightM.refresh_props Sample.responsive Sample.lamp)))
      = Some (mkColor 0 255 0))
  /\ (fst (LightM.refresh_props Sample.white_only Sample.lamp) = Raise TypeError
      /\ is_connected (self (snd (LightM.refresh_props Sample.white_only Sample.lamp))) = true
      /\ color (self (snd (LightM.refresh_props Sample.white_only Sample.lamp))) = None).
Proof.
  split.
  - destruct (refresh_outcome Sample.responsive Sample.lamp) as (_ & _ & _ & Hanswered & _).
    destruct (Hanswered eq_refl) as (Hread & _).
    destruct (Hread 50 65280 (Some (pystr_of_string "on")) (Some (pystr_of_string "1")))
      as (Hok & Hbright & _ & Hcolor & _); try (vm_compute; reflexivity).
    split; [exact Hok | split; [exact Hbright | exact Hcolor]].
  - destruct (refresh_outcome Sample.white_only Sample.lamp) as (_ & Hconn & _ & Hanswered & _).
    destruct (Hanswered eq_refl) as (_ & _ & Hrgb).
    destruct (Hrgb 50 (Some (pystr_of_string "on")) TypeError) as (Hraise & Hself);
      try (vm_compute; reflexivity).
    split; [exact Hraise | split; [exact Hconn |]].
    rewrite Hself. reflexivity.
Defined.

Lemma perform_same_identity (bulb : Bulb) (o : operation) (h : heap) :
  same_identity (self h) (self (snd (perform bulb o h))).
Proof.
  unfold same_identity.
  destruct o as [n | v | b | en ep |]; unfold_light; cbn;
    try destruct v; try destruct b; try destruct en; cbn;
    split_cases; cbn; auto.
Qed.

Lemma last_app_default {A} (l1 l2 : list A) (d : A) :
  List.last (l1 ++ l2) d = List.last l2 (List.last l1 d).
Proof.
  revert d.
  assert (Hany : forall (l : list A) (a d d' : A),
             List.last (a :: l) d = List.last (a :: l) d').
  { induction l as [| b l IH]; intros a d d'; [reflexivity |].
    change (List.last (b :: l) d = List.last (b :: l) d'). apply IH. } induction l1 as [| a l1 IH]; intros d; [reflexivity |].
  destruct l1 as [| b l1].
  - destruct l2 as [| c l2]; [reflexivity |].
    change (List.last (c :: l2) d = List.last (c :: l2) a). apply Hany.
  - change (List.last ((b :: l1) ++ l2) d = List.last l2 (List.last (b :: l1) d)).
    apply IH.
Qed.

Lemma execute_identity (max_light_length : Z) (c : command) (ob : object) :
  let l := light (snd (execute max_light_length c ob)) in
  ip l = ip (light ob)
  /\ _id l = _id (light ob)
  /\ name l = List.last (names_taken max_light_length [c]) (name (light ob))
  /\ is_default l = List.last (flags_given [c]) (is_default (light ob)).
Proof.
  cbv zeta. destruct c as [bulb o | [new_name | new_is_default]];
    cbn [execute names_taken flags_given flat_map app].
  - pose proof (perform_same_identity bulb o (mkHeap (light ob) (calls ob))) as Hsame.
    destruct (perform bulb o (mkHeap (light ob) (calls ob))) as [r h].
    unfold same_identity in Hsame. cbn in *. tauto.
  - unfold perform_identity, set_name_prop.
    destruct (max_light_length <? Z.of_nat (List.length new_name)); cbn; auto.
  - cbn. auto.
Qed.

(** X5. A Light's address and id are never written after its construction,
    and its name and default flag are written by their own assignments
    only: after any history of commands - calls on the bulb, refresh ticks,
    assignments of the name and of the default flag - the address and the id
    are those the Light was created with, the name is the last one assigned
    that was not refused for its length, and the default flag is the last
    one assigned; with no such assignment they are those of the
    construction too. *)
Theorem identity_never_changes
    (max_light_length : Z) (history : list command) (bulb : Bulb) (ip0 id0 : string)
    (name0 : pystr) (default0 connected0 : bool) (db : list saved_light) :
  let h0 := snd (LightM.init bulb ip0 id0 name0 default0 connected0) in
  let l := light (run_commands max_light_length history
                    (mkObject (self h0) (issued h0) db)) in
  ip l = ip0
  /\ _id l = id0
  /\ name l = List.last (names_taken max_light_length history) name0
  /\ is_default l = List.last (flags_given history) default0.
Proof.
  cbv zeta.
  assert (Hrun : forall hist ob,
             let l := light (run_commands max_light_length hist ob) in
             ip l = ip (light ob)
             /\ _id l = _id (light ob)
             /\ name l = List.last (names_taken max_light_length hist) (name (light ob))
             /\ is_default l = List.last (flags_given hist) (is_default (light ob))).
  { induction hist as [| c rest IH]; intros ob; cbv zeta; cbn [run_commands].
    - cbn. auto.
    - destruct (IH (snd (execute max_light_length c ob))) as (-> & -> & -> & ->).
      destruct (execute_identity max_light_length c ob) as (-> & -> & -> & ->).
      assert (Hnames : names_taken max_light_length (c :: rest)
                       = (names_taken max_light_length [c]
                          ++ names_taken max_light_length rest)%list)
        by (unfold names_taken; cbn [flat_map]; rewrite app_nil_r; reflexivity).
      assert (Hflags : flags_given (c :: rest) = (flags_given [c] ++ flags_given rest)%list)
        by (unfold flags_given; cbn [flat_map]; rewrite app_nil_r; reflexivity).
      rewrite Hnames, Hflags, !last_app_default. auto. }
  set (h0 := snd (LightM.init bulb ip0 id0 name0 default0 connected0)).
  assert (Hinit : ip (self h0) = ip0 /\ _id (self h0) = id0
                  /\ name (self h0) = name0 /\ is_default (self h0) = default0).
  { subst h0. unfold LightM.init. destruct connected0; [| cbn; auto].
    apply (perform_same_identity bulb Refresh). }
  destruct (Hrun history (mkObject (self h0) (issued h0) db)) as (-> & -> & -> & ->).
  cbn [light]. destruct Hinit as (-> & -> & -> & ->). auto.
Qed.

Example identity_after_commands :
  let l := light (run_commands 8
                    [OnRecord (SetName (pystr_of_string "HALL"));
                     OnBulb Sample.white_only Refresh;
                     OnRecord (SetName (pystr_of_string "THE LONG HALLWAY"));
                     OnBulb Sample.unreachable (SetOn true);
                     OnRecord (SetIsDefault false)]
                    (mkObject (self Sample.lamp) [] [])) in
  ip l = "192.168.1.10" /\ name l = pystr_of_string "HALL" /\ is_default l = false.
Proof. vm_compute. repeat split. Qed.

Lemma perform_one_call (bulb : Bulb) (o : operation) (h : heap) :
  exists cs : list call,
    issued (snd (perform bulb o h)) = (issued h ++ cs)%list
    /\ (List.length cs <= 1)%nat.
Proof.
  destruct o as [n | v | b | en ep |]; unfold_light; cbn;
    try destruct v; try destruct b; try destruct en; cbn;
    split_cases; cbn;
    first [ exists []; split; [symmetry; apply app_nil_r | cbn; lia]
          | eexists [_]; split; [reflexivity | cbn; lia] ].
Qed.

(** X6. Every operation issues at most one call on the bulb and never
    rewrites the calls already issued: after a history of [n] operations the
    list of issued calls is the earlier list followed by at most [n] calls. *)
Theorem at_most_one_call_each (history : list (Bulb * operation)) (h : heap) :
  exists cs : list call,
    issued (run history h) = (issued h ++ cs)%list
    /\ (List.length cs <= List.length history)%nat.
Proof.
  revert h. induction history as [| [bulb o] rest IH]; intros h; cbn [run].
  - exists []. split; [symmetry; apply app_nil_r | cbn; lia].
  - destruct (perform_one_call bulb o h) as (c1 & Hc1 & Hlen1).
    destruct (IH (snd (perform bulb o h))) as (cs & Hcs & Hlen).
    exists (c1 ++ cs)%list. split.
    + rewrite Hcs, Hc1, <- app_assoc. reflexivity.
    + rewrite length_app. cbn [List.length]. lia.
Qed.

(** ** Invariants of every reachable Light *)

Lemma construct_ok_keys (cls : effect_class) (kwargs : gmap string Z) (e : LightEffect) :
  construct cls kwargs = Ok e -> keys_accepted cls kwargs.
Proof.
  unfold construct, keys_accepted.
  destruct (bool_decide (map_Forall (fun k _ => k ∈ parameters cls) kwargs)) eqn:Hkeys;
    [| discriminate].
  intros _. apply bool_decide_eq_true in Hkeys. exact Hkeys.
Qed.

Lemma perform_keeps_known (bulb : Bulb) (o : operation) (h : heap) :
  recorded_effect_known (self h) ->
  recorded_effect_known (self (snd (perform bulb o h))).
Proof.
  unfold recorded_effect_known. intros Hinv.
  destruct o as [n | v | b | en ep |]; unfold_light.
  - cbn. split_cases; cbn; first [exact Hinv | reflexivity].
  - cbn. destruct v; cbn; split_cases; cbn; first [exact Hinv | reflexivity].
  - cbn. destruct b; cbn; split_cases; cbn; first [exact Hinv | reflexivity].
  - destruct en as [effect_name |].
    + unfold getitem.
      destruct (effects_map !! effect_name) as [cls |] eqn:Hknown; [| exact Hinv].
      destruct (construct cls (default ∅ ep)) as [e | err] eqn:Hbuilt.
      * apply construct_ok_keys in Hbuilt.
        destruct (accepts bulb (start_flow (get_flow e))); cbn; [| reflexivity].
        exists cls. split; [exact Hknown | exact Hbuilt].
      * destruct err; cbn; first [exact Hinv | reflexivity].
    + cbn. split_cases; cbn; reflexivity.
  - cbn. split_cases; cbn; first [exact Hinv | reflexivity].
Qed.

Lemma perform_keeps_color (bulb : Bulb) (o : operation) (h : heap) :
  (o = Refresh -> fst (perform bulb o h) = Ok tt) ->
  connected_has_color (self h) ->
  connected_has_color (self (snd (perform bulb o h))).
Proof.
  unfold connected_has_color. intros Hreturns Hinv.
  destruct o as [n | v | b | en ep |]; [| | | | specialize (Hreturns eq_refl)];
    revert Hreturns; unfold_light; cbn;
    try destruct v; try destruct b; try destruct en; cbn;
    split_cases; cbn; intros Hreturns;
    first [exact Hinv | discriminate | intros _; eexists; reflexivity].
Qed.

Lemma init_known (bulb : Bulb) (ip0 id0 : string) (name0 : pystr)
    (default0 connected0 : bool) :
  recorded_effect_known (self (snd (LightM.init bulb ip0 id0 name0 default0 connected0))).
Proof.
  unfold LightM.init. destruct connected0; [| reflexivity].
  apply (perform_keeps_known bulb Refresh). reflexivity.
Qed.

Lemma init_has_color (bulb : Bulb) (ip0 id0 : string) (name0 : pystr)
    (default0 connected0 : bool) :
  fst (LightM.init bulb ip0 id0 name0 default0 connected0) = Ok tt ->
  connected_has_color (self (snd (LightM.init bulb ip0 id0 name0 default0 connected0))).
Proof.
  unfold LightM.init. destruct connected0; [| intros _; discriminate].
  unfold connected_has_color. unfold_light. cbn.
  split_cases; cbn; intros Hreturns;
    first [discriminate | intros _; eexists; reflexivity].
Qed.

Lemma run_keeps (P : Light -> Prop) :
  (forall bulb o h, P (self h) -> P (self (snd (perform bulb o h)))) ->
  forall (history : list (Bulb * operation)) (h : heap),
    P (self h) -> P (self (run history h)).
Proof.
  intros Hstep. induction history as [| [bulb o] rest IH]; intros h Hh; cbn [run].
  - exact Hh.
  - apply IH, Hstep, Hh.
Qed.

(** X7. In every Light, after any history of operations and refresh ticks
    since its construction, a recorded effect name is one of the five keys
    of [effects_map] and the recorded parameters are all parameters of that
    effect; with no name recorded the parameters are empty. *)
Theorem recorded_effect_is_known
    (history : list (Bulb * operation)) (bulb : Bulb) (ip0 id0 : string) (name0 : pystr)
    (default0 connected0 : bool) :
  recorded_effect_known
    (self (run history (snd (LightM.init bulb ip0 id0 name0 default0 connected0)))).
Proof.
  apply (run_keeps recorded_effect_known perform_keeps_known).
  apply init_known.
Qed.

Lemma dump_props_keys (l : Light) :
  connected_has_color l ->
  exists d : gmap string pyvalue,
    dump_props l = Ok d
    /\ dom d = (if is_connected l then live_keys ∪ identity_keys else identity_keys)
    /\ d !! "is_connected" = Some (VBool (is_connected l)).
Proof.
  unfold connected_has_color, dump_props. intros Hcolor.
  destruct (is_connected l) eqn:Hconn.
  - destruct (Hcolor eq_refl) as [c ->]. cbn [color_hex].
    eexists. split; [reflexivity | split].
    + rewrite dom_union_L, !dom_list_to_map_L. reflexivity.
    + reflexivity.
  - eexists. split; [reflexivity | split].
    + rewrite dom_list_to_map_L. reflexivity.
    + reflexivity.
Qed.

Lemma run_keeps_color (history : list (Bulb * operation)) :
  forall h : heap,
    refreshes_return history h ->
    connected_has_color (self h) ->
    connected_has_color (self (run history h)).
Proof.
  induction history as [| [bulb o] rest IH]; intros h Hreturn Hcolor; cbn [run].
  - exact Hcolor.
  - destruct Hreturn as [Hstep Hrest].
    apply IH; [exact Hrest |]. apply perform_keeps_color; assumption.
Qed.

(** X8. On a Light that the constructor returned and that then went
    through any history in which no refresh tick raised, [dump_props] does
    not fail: it returns the five identity entries, and the six live
    entries as well exactly when the Light is connected.  A refresh tick
    that raises can break this: answered by a bulb whose brightness or
    colour is missing or refused by [int], on a Light that has no colour
    yet, it leaves the Light connected and without a colour, and
    [dump_props] then raises an [AttributeError]. *)
Theorem dump_props_of_reachable
    (history : list (Bulb * operation)) (bulb : Bulb) (ip0 id0 : string) (name0 : pystr)
    (default0 connected0 : bool) :
  let created := LightM.init bulb ip0 id0 name0 default0 connected0 in
  let l := self (run history (snd created)) in
  (fst created = Ok tt ->
   refreshes_return history (snd created) ->
   exists d : gmap string pyvalue,
     dump_props l = Ok d
     /\ dom d = (if is_connected l then live_keys ∪ identity_keys else identity_keys)
     /\ d !! "is_connected" = Some (VBool (is_connected l)))
  /\ (forall (tick : Bulb) (h : heap) (e : exn),
        color (self h) = None ->
        accepts tick get_properties = true ->
        int_of (reported tick) "bright" = Raise e
        \/ (exists (b : Z) (power : option pystr),
              int_of (reported tick) "bright" = Ok b
              /\ getitem (reported tick) "power" = Ok power
              /\ int_of (reported tick) "rgb" = Raise e) ->
        fst (perform tick Refresh h) = Raise e
        /\ dump_props (self (snd (perform tick Refresh h)))
           = Raise (AttributeError "'NoneType' object has no attribute 'hex'")).
Proof.
  cbv zeta. split.
  - intros Hcreated Hreturn. apply dump_props_keys.
    apply run_keeps_color; [exact Hreturn |]. apply init_has_color. exact Hcreated.
  - intros tick h e Hnone Hanswer Hunread.
    assert (Hshape : fst (perform tick Refresh h) = Raise e
                     /\ is_connected (self (snd (perform tick Refresh h))) = true
                     /\ color (self (snd (perform tick Refresh h))) = None).
    { unfold int_of in Hunread. unfold_light. cbn. rewrite Hanswer. cbn.
      destruct Hunread as [Hbright | (b & power & Hbright & Hpower & Hrgb)].
      - destruct (getitem (reported tick) "bright") as [bright | e0] eqn:Hitem.
        + rewrite Hbright. cbn. rewrite (int_not_from_bulb _ _ Hbright). cbn. auto.
        + injection Hbright as ->. cbn. rewrite (getitem_not_from_bulb _ _ _ Hitem).
          cbn. auto.
      - destruct (getitem (reported tick) "bright") as [bright |]; [| discriminate].
        rewrite Hbright, Hpower. cbn.
        destruct (getitem (reported tick) "rgb") as [rgb | e0] eqn:Hitem.
        + rewrite Hrgb. cbn. rewrite (int_not_from_bulb _ _ Hrgb). cbn. auto.
        + injection Hrgb as ->. cbn. rewrite (getitem_not_from_bulb _ _ _ Hitem).
          cbn. auto. }
    destruct Hshape as (Hraise & Hconn & Hcolor).
    split; [exact Hraise |]. unfold dump_props. rewrite Hconn, Hcolor. reflexivity.
Qed.

Lemma dump_props_of_reachable_witness :
  (exists d : gmap string pyvalue,
     dump_props (self (run [(Sample.responsive, Refresh); (Sample.unreachable, SetOn true)]
                           Sample.lamp)) = Ok d
     /\ dom d = identity_keys)
  /\ dump_props (self (snd (perform Sample.white_only Refresh Sample.lamp)))
     = Raise (AttributeError "'NoneType' object has no attribute 'hex'").
Proof.
  split.
  - destruct (dump_props_of_reachable
                [(Sample.responsive, Refresh); (Sample.unreachable, SetOn true)]
                Sample.unreachable "192.168.1.10" "5f1d" (pystr_of_string "LAMP") true false)
      as [Hreached _].
    destruct Hreached as (d & Hd & Hdom & _).
    + reflexivity.
    + split; [intros _; vm_compute; reflexivity |].
      split; [discriminate | exact I].
    + exists d. split; [exact Hd | exact Hdom].
  - destruct (dump_props_of_reachable [] Sample.unreachable "" "" [] false false)
      as [_ Hbroken].
    apply (Hbroken Sample.white_only Sample.lamp TypeError).
    + reflexivity.
    + reflexivity.
    + right. exists 50, (Some (pystr_of_string "on")). vm_compute. repeat split.
Defined.

Lemma refused_disconnects (bulb : Bulb) (o : operation) (h : heap) (c : call) :
  issued (snd (perform bulb o h)) = (issued h ++ [c])%list ->
  accepts bulb c = false ->
  is_connected (self (snd (perform bulb o h))) = false.
Proof.
  destruct o as [n | v | b | en ep |]; unfold_light; cbn;
    try destruct v; try destruct b; try destruct en; cbn;
    split_cases; cbn; intros Hissued Hrefused;
    try same_call; try congruence; auto.
Qed.

(** X9. After an operation whose call the bulb refused, [dump_props]
    returns the identity entries only, with [is_connected] false: no
    brightness, power, colour or effect is shown. *)
Theorem dump_props_after_refusal (bulb : Bulb) (o : operation) (h : heap) (c : call) :
  issued (snd (perform bulb o h)) = (issued h ++ [c])%list ->
  accepts bulb c = false ->
  exists d : gmap string pyvalue,
    dump_props (self (snd (perform bulb o h))) = Ok d
    /\ dom d = identity_keys
    /\ d !! "is_connected" = Some (VBool false)
    /\ d !! "brightness" = None /\ d !! "on" = None /\ d !! "color" = None
    /\ d !! "is_flowing" = None /\ d !! "effect" = None /\ d !! "effect_props" = None.
Proof.
  intros Hissued Hrefused.
  pose proof (refused_disconnects bulb o h c Hissued Hrefused) as Hdis.
  unfold dump_props. rewrite Hdis.
  eexists. split; [reflexivity |].
  split; [rewrite dom_list_to_map_L; reflexivity |].
  repeat split; reflexivity.
Qed.

Lemma dump_props_after_refusal_witness :
  exists d : gmap string pyvalue,
    dump_props (self (snd (perform Sample.unreachable (SetBrightness 40) Sample.lamp_on))) = Ok d
    /\ dom d = identity_keys
    /\ d !! "is_connected" = Some (VBool false)
    /\ d !! "brightness" = None /\ d !! "on" = None /\ d !! "color" = None
    /\ d !! "is_flowing" = None /\ d !! "effect" = None /\ d !! "effect_props" = None.
Proof.
  apply (dump_props_after_refusal Sample.unreachable (SetBrightness 40) Sample.lamp_on
           (set_brightness 40)); reflexivity.
Defined.

(** ** Color: text and integers *)

Lemma hex_digit_lowered (c : ascii) (n : Z) :
  Hex.digit_value c = Some n ->
  digit_of (Hex.lower_char c) n /\ Hex.hex_char n = Hex.lower_char c.
Proof.
  unfold digit_of.
  destruct c as [[] [] [] [] [] [] [] []]; vm_compute; intros Hn;
    try discriminate Hn; injection Hn as <-; repeat split.
Qed.

Lemma hex_digit_has_value (c : ascii) :
  Hex.is_hex_digit c = true -> exists n : Z, Hex.digit_value c = Some n.
Proof.
  unfold Hex.is_hex_digit, Hex.digit_value.
  destruct (Hex.in_range 48 57 c); [eauto |].
  destruct (Hex.in_range 97 102 c); [eauto |].
  destruct (Hex.in_range 65 70 c); [eauto | discriminate].
Qed.

Lemma lowered_digit (c : ascii) :
  Hex.is_hex_digit c = true ->
  exists n : Z,
    0 <= n < 16 /\ digit_of (Hex.lower_char c) n /\ Hex.hex_char n = Hex.lower_char c.
Proof.
  intros Hc. destruct (hex_digit_has_value c Hc) as [n Hn]. exists n.
  split; [exact (digit_value_bound c n Hn) | exact (hex_digit_lowered c n Hn)].
Qed.

(** The text of six digits [n1..n6], each below sixteen. *)
Lemma hex_of_six_digits (n1 n2 n3 n4 n5 n6 : Z) :
  0 <= n1 < 16 -> 0 <= n2 < 16 -> 0 <= n3 < 16 ->
  0 <= n4 < 16 -> 0 <= n5 < 16 -> 0 <= n6 < 16 ->
  let v := six_digits n1 n2 n3 n4 n5 n6 in
  ColorM.hex (mkColor (Z.shiftr v 16) (Z.land (Z.shiftr v 8) 255) (Z.land v 255))
    = string_of_list_ascii
        ["#"%char; Hex.hex_char n1; Hex.hex_char n2; Hex.hex_char n3;
         Hex.hex_char n4; Hex.hex_char n5; Hex.hex_char n6].
Proof.
  intros H1 H2 H3 H4 H5 H6. cbv zeta.
  assert (Hland : forall x, Z.land x 255 = x mod 256)
    by (intros x; change 255 with (Z.ones 8); apply Z.land_ones; lia).
  rewrite !Hland, !Z.shiftr_div_pow2 by lia.
  change (2 ^ 16) with 65536. change (2 ^ 8) with 256.
  assert (Hr : six_digits n1 n2 n3 n4 n5 n6 / 65536 = n1 * 16 + n2)
    by (unfold six_digits; Z.div_mod_to_equations; lia).
  assert (Hg : (six_digits n1 n2 n3 n4 n5 n6 / 256) mod 256 = n3 * 16 + n4)
    by (unfold six_digits; Z.div_mod_to_equations; lia).
  assert (Hb : six_digits n1 n2 n3 n4 n5 n6 mod 256 = n5 * 16 + n6)
    by (unfold six_digits; Z.div_mod_to_equations; lia).
  rewrite Hr, Hg, Hb.
  unfold ColorM.hex, ColorM.rgb_tuple, Hex.rgb_to_hex. cbn [red green blue].
  assert (Hbyte : forall hi lo, 0 <= hi < 16 -> 0 <= lo < 16 ->
            Hex.format_02x (Hex.normalize_integer_rgb (hi * 16 + lo))
              = [Hex.hex_char hi; Hex.hex_char lo]).
  { intros hi lo Hhi Hlo.
    assert (Hv : channel_ok (hi * 16 + lo)) by (unfold channel_ok; lia).
    destruct (byte_digits _ Hv) as (-> & _ & _).
    replace ((hi * 16 + lo) / 16) with hi by (Z.div_mod_to_equations; lia).
    replace ((hi * 16 + lo) mod 16) with lo by (Z.div_mod_to_equations; lia).
    reflexivity. }
  rewrite !Hbyte by assumption. reflexivity.
Qed.

Lemma normalize_hex_digits (s t : string) :
  Hex.normalize_hex s = Ok t ->
  exists n1 n2 n3 n4 n5 n6 : Z,
    (0 <= n1 < 16 /\ 0 <= n2 < 16 /\ 0 <= n3 < 16
     /\ 0 <= n4 < 16 /\ 0 <= n5 < 16 /\ 0 <= n6 < 16)
    /\ (digit_of (Hex.hex_char n1) n1 /\ digit_of (Hex.hex_char n2) n2
        /\ digit_of (Hex.hex_char n3) n3 /\ digit_of (Hex.hex_char n4) n4
        /\ digit_of (Hex.hex_char n5) n5 /\ digit_of (Hex.hex_char n6) n6)
    /\ t = string_of_list_ascii
             ["#"%char; Hex.hex_char n1; Hex.hex_char n2; Hex.hex_char n3;
              Hex.hex_char n4; Hex.hex_char n5; Hex.hex_char n6].
Proof.
  unfold Hex.normalize_hex.
  destruct (list_ascii_of_string s) as [| c rest]; [discriminate |].
  cbv zeta. generalize (Hex.before_end rest) as digits. intros digits.
  destruct (Ascii.eqb c "#" && forallb Hex.is_hex_digit digits
            && ((List.length digits =? 3)%nat || (List.length digits =? 6)%nat)) eqn:Hok;
    [| discriminate].
  intros [= <-].
  apply andb_true_iff in Hok. destruct Hok as [Hok Hlen].
  apply andb_true_iff in Hok. destruct Hok as [_ Hall].
  assert (Hdigits :
    exists d1 d2 d3 d4 d5 d6 : ascii,
      (if (List.length digits =? 3)%nat then Hex.double_each digits else digits)
        = [d1; d2; d3; d4; d5; d6]
      /\ forallb Hex.is_hex_digit [d1; d2; d3; d4; d5; d6] = true).
  { destruct (List.length digits =? 3)%nat eqn:H3.
    - apply Nat.eqb_eq in H3.
      destruct digits as [| d1 [| d2 [| d3 [| d4 more]]]]; try discriminate H3.
      exists d1, d1, d2, d2, d3, d3. split; [reflexivity |].
      cbn in Hall |- *.
      destruct (Hex.is_hex_digit d1), (Hex.is_hex_digit d2), (Hex.is_hex_digit d3);
        try discriminate Hall; reflexivity.
    - cbn in Hlen. apply Nat.eqb_eq in Hlen.
      destruct digits as [| d1 [| d2 [| d3 [| d4 [| d5 [| d6 [| d7 more]]]]]]];
        try discriminate Hlen.
      exists d1, d2, d3, d4, d5, d6. split; [reflexivity | exact Hall]. }
  destruct Hdigits as (d1 & d2 & d3 & d4 & d5 & d6 & -> & Hsix).
  cbn [forallb] in Hsix.
  apply andb_true_iff in Hsix. destruct Hsix as [E1 Hsix].
  apply andb_true_iff in Hsix. destruct Hsix as [E2 Hsix].
  apply andb_true_iff in Hsix. destruct Hsix as [E3 Hsix].
  apply andb_true_iff in Hsix. destruct Hsix as [E4 Hsix].
  apply andb_true_iff in Hsix. destruct Hsix as [E5 Hsix].
  apply andb_true_iff in Hsix. destruct Hsix as [E6 _].
  destruct (lowered_digit d1 E1) as (n1 & B1 & D1 & L1).
  destruct (lowered_digit d2 E2) as (n2 & B2 & D2 & L2).
  destruct (lowered_digit d3 E3) as (n3 & B3 & D3 & L3).
  destruct (lowered_digit d4 E4) as (n4 & B4 & D4 & L4).
  destruct (lowered_digit d5 E5) as (n5 & B5 & D5 & L5).
  destruct (lowered_digit d6 E6) as (n6 & B6 & D6 & L6).
  cbn [List.map]. rewrite <- L1, <- L2, <- L3, <- L4, <- L5, <- L6 in *.
  exists n1, n2, n3, n4, n5, n6. auto 20.
Qed.

(** X10. Parsing a hex string and writing the Color back gives the
    normalised form of the string: [#], then six lower-case digits, a
    three-digit string having each digit doubled. *)
Theorem hex_of_from_hex (s : string) (c : Color) :
  ColorM.from_hex s = Ok c ->
  Hex.normalize_hex s = Ok (ColorM.hex c)
  /\ String.length (ColorM.hex c) = 7%nat.
Proof.
  intros Hparse.
  destruct (Hex.normalize_hex s) as [t | e] eqn:Hnorm.
  - destruct (normalize_hex_digits s t Hnorm)
      as (n1 & n2 & n3 & n4 & n5 & n6 & Hbounds & Hdigits & ->).
    destruct Hbounds as (B1 & B2 & B3 & B4 & B5 & B6).
    destruct Hdigits as (D1 & D2 & D3 & D4 & D5 & D6).
    unfold ColorM.from_hex in Hparse. rewrite Hnorm in Hparse.
    pose proof (from_hex_six_digits _ _ _ _ _ _ _ _ _ _ _ _ D1 D2 D3 D4 D5 D6) as Hsix.
    unfold ColorM.from_hex in Hsix.
    assert (Hself : Hex.normalize_hex
                      (string_of_list_ascii
                         ["#"%char; Hex.hex_char n1; Hex.hex_char n2; Hex.hex_char n3;
                          Hex.hex_char n4; Hex.hex_char n5; Hex.hex_char n6])
                    = Ok (string_of_list_ascii
                         ["#"%char; Hex.hex_char n1; Hex.hex_char n2; Hex.hex_char n3;
                          Hex.hex_char n4; Hex.hex_char n5; Hex.hex_char n6])).
    { unfold Hex.normalize_hex. rewrite list_ascii_of_string_of_list_ascii.
      destruct D1 as (E1 & L1 & _), D2 as (E2 & L2 & _), D3 as (E3 & L3 & _),
               D4 as (E4 & L4 & _), D5 as (E5 & L5 & _), D6 as (E6 & L6 & _).
      rewrite before_end_digits
        by (cbn [forallb]; rewrite E1, E2, E3, E4, E5, E6; reflexivity).
      cbn [forallb List.length Nat.eqb orb andb List.map].
      rewrite E1, E2, E3, E4, E5, E6, L1, L2, L3, L4, L5, L6.
      reflexivity. }
    rewrite Hself in Hsix. rewrite Hsix in Hparse. injection Hparse as <-.
    pose proof (hex_of_six_digits n1 n2 n3 n4 n5 n6 B1 B2 B3 B4 B5 B6) as Hhex.
    cbv zeta in *. rewrite Hhex. split; reflexivity.
  - unfold ColorM.from_hex in Hparse. rewrite Hnorm in Hparse.
    destruct (is_ValueError e); discriminate Hparse.
Qed.

Lemma hex_of_from_hex_witness :
  Hex.normalize_hex "#0Fa" = Ok (ColorM.hex (mkColor 0 255 170))
  /\ String.length (ColorM.hex (mkColor 0 255 170)) = 7%nat.
Proof. apply (hex_of_from_hex "#0Fa" (mkColor 0 255 170)). reflexivity. Defined.

Lemma normalize_hex_error (s : string) (e : exn) :
  Hex.normalize_hex s = Raise e -> is_ValueError e = true.
Proof.
  unfold Hex.normalize_hex.
  destruct (list_ascii_of_string s) as [| c rest]; [intros [= <-]; reflexivity |].
  cbv zeta. generalize (Hex.before_end rest) as digits. intros digits.
  destruct (Ascii.eqb c "#" && forallb Hex.is_hex_digit digits
            && ((List.length digits =? 3)%nat || (List.length digits =? 6)%nat));
    [discriminate | intros [= <-]; reflexivity].
Qed.

Lemma int16_from_error (cs : list ascii) :
  forall (acc : Z) (e : exn), Hex.int16_from acc cs = Raise e -> is_ValueError e = true.
Proof.
  induction cs as [| c cs IH]; intros acc e; cbn [Hex.int16_from]; [discriminate |].
  destruct (Hex.digit_value c); [apply IH | intros [= <-]; reflexivity].
Qed.

Lemma from_hex_raises (s : string) (e : exn) :
  ColorM.from_hex s = Raise e -> e = ValueError "Hex color value supplied is invalid".
Proof.
  unfold ColorM.from_hex, Hex.hex_to_rgb.
  destruct (Hex.normalize_hex s) as [t | e1] eqn:Hs.
  - destruct (Hex.normalize_hex t) as [t' | e2] eqn:Ht.
    + destruct (Hex.int16 (List.tl (list_ascii_of_string t'))) as [v | e3] eqn:Hv;
        [discriminate |].
      assert (He3 : is_ValueError e3 = true).
      { unfold Hex.int16 in Hv.
        destruct (List.tl (list_ascii_of_string t')); [injection Hv as <-; reflexivity |].
        exact (int16_from_error _ _ _ Hv). }
      rewrite He3. intros [= <-]. reflexivity.
    + rewrite (normalize_hex_error t e2 Ht). intros [= <-]. reflexivity.
  - rewrite (normalize_hex_error s e1 Hs). intros [= <-]. reflexivity.
Qed.

Lemma before_end_cases (cs : list ascii) :
  Hex.before_end cs = cs \/ cs = (Hex.before_end cs ++ ["010"%char])%list.
Proof.
  induction cs as [| c rest IH]; [left; reflexivity |].
  cbn [Hex.before_end]. destruct rest as [| d rest'].
  - destruct (Ascii.eqb c "010") eqn:Hfeed; [| left; reflexivity].
    apply Ascii.eqb_eq in Hfeed. subst c. right. reflexivity.
  - destruct IH as [-> | Hfeed]; [left; reflexivity |].
    right. cbn [app]. rewrite <- Hfeed. reflexivity.
Qed.

Lemma string_of_list_ascii_length (l : list ascii) :
  String.length (string_of_list_ascii l) = List.length l.
Proof. induction l as [| a l IH]; cbn; [reflexivity | rewrite IH; reflexivity]. Qed.

(** X11. [Color.from_hex] either returns a Color with every channel in
    [0, 255] or raises the [ValueError] "Hex color value supplied is
    invalid"; no other exception leaves it.  A string it accepts begins
    with [#] and has four or seven characters, or one more when the last is
    a line feed, which the pattern lets pass: ["#fff\n"] is read as
    ["#fff"]. *)
Theorem from_hex_outcomes (s : string) :
  ((exists c : Color, ColorM.from_hex s = Ok c /\ channels_in_range c)
   \/ ColorM.from_hex s = Raise (ValueError "Hex color value supplied is invalid"))
  /\ (forall c : Color,
        ColorM.from_hex s = Ok c ->
        String.get 0 s = Some "#"%char
        /\ (String.length s = 4%nat \/ String.length s = 7%nat
            \/ (String.length s = 5%nat /\ String.get 4 s = Some "010"%char)
            \/ (String.length s = 8%nat /\ String.get 7 s = Some "010"%char)))
  /\ ColorM.from_hex Sample.white_and_line_feed = Ok (mkColor 255 255 255).
Proof.
  split; [| split; [| reflexivity]].
  - destruct (ColorM.from_hex s) as [c | e] eqn:Hparse.
    + left. exists c. split; [reflexivity | exact (from_hex_in_range s c Hparse)].
    + right. rewrite (from_hex_raises s e Hparse). reflexivity.
  - intros c.
    assert (Hs : s = string_of_list_ascii (list_ascii_of_string s))
      by (symmetry; apply string_of_list_ascii_of_string).
    unfold ColorM.from_hex, Hex.normalize_hex.
    remember (list_ascii_of_string s) as l eqn:Hl in *. clear Hl. subst s.
    destruct l as [| c0 rest]; [discriminate |].
    cbv zeta. remember (Hex.before_end rest) as digits eqn:Hdigits.
    destruct (Ascii.eqb c0 "#" && forallb Hex.is_hex_digit digits
              && ((List.length digits =? 3)%nat || (List.length digits =? 6)%nat)) eqn:Hok;
      [| discriminate].
    intros _.
    apply andb_true_iff in Hok. destruct Hok as [Hok Hlen].
    apply andb_true_iff in Hok. destruct Hok as [Hhash _].
    apply Ascii.eqb_eq in Hhash. subst c0.
    split; [reflexivity |].
    destruct (before_end_cases rest) as [Hsame | Hfeed]; rewrite <- Hdigits in *.
    + subst rest. rewrite string_of_list_ascii_length. cbn [List.length].
      apply orb_true_iff in Hlen. destruct Hlen as [H | H]; apply Nat.eqb_eq in H; lia.
    + subst rest. clear Hdigits.
      apply orb_true_iff in Hlen. destruct Hlen as [H | H]; apply Nat.eqb_eq in H.
      * destruct digits as [| d1 [| d2 [| d3 [| d4 more]]]]; try discriminate H.
        right; right; left. split; reflexivity.
      * destruct digits as [| d1 [| d2 [| d3 [| d4 [| d5 [| d6 [| d7 more]]]]]]];
          try discriminate H.
        right; right; right. split; reflexivity.
Qed.

Lemma from_hex_outcomes_witness :
  String.get 0 "#0Fa" = Some "#"%char
  /\ (String.length "#0Fa" = 4%nat \/ String.length "#0Fa" = 7%nat
      \/ (String.length "#0Fa" = 5%nat /\ String.get 4 "#0Fa" = Some "010"%char)
      \/ (String.length "#0Fa" = 8%nat /\ String.get 7 "#0Fa" = Some "010"%char)).
Proof.
  apply (proj1 (proj2 (from_hex_outcomes "#0Fa")) (mkColor 0 255 170)). reflexivity.
Defined.

(** X12. [rgb_to_hex] clamps before it writes: for any Color, whatever its
    channels, the hex text parses back to the Color with each channel
    brought into [0, 255]. *)
Theorem from_hex_of_any_hex (c : Color) :
  ColorM.from_hex (ColorM.hex c) = Ok (clamped c)
  /\ channels_in_range (clamped c).
Proof.
  assert (Hclamp : forall v, channel_ok (Hex.normalize_integer_rgb v)).
  { intros v. unfold channel_ok, Hex.normalize_integer_rgb.
    destruct (Z.ltb_spec v 0); [lia |]. destruct (Z.ltb_spec 255 v); lia. }
  assert (Hidem : forall v,
            Hex.normalize_integer_rgb (Hex.normalize_integer_rgb v)
              = Hex.normalize_integer_rgb v).
  { intros v. unfold Hex.normalize_integer_rgb.
    destruct (Z.ltb_spec v 0); [reflexivity |].
    destruct (Z.ltb_spec 255 v); [reflexivity |].
    destruct (Z.ltb_spec v 0); [lia |]. destruct (Z.ltb_spec 255 v); [lia | reflexivity]. }
  assert (Hrange : channels_in_range (clamped c))
    by (unfold channels_in_range, clamped; cbn [red green blue]; auto).
  split; [| exact Hrange].
  assert (Hsame : ColorM.hex c = ColorM.hex (clamped c)).
  { unfold ColorM.hex, ColorM.rgb_tuple, Hex.rgb_to_hex, clamped. cbn [red green blue].
    rewrite !Hidem. reflexivity. }
  rewrite Hsame. apply from_hex_of_hex. exact Hrange.
Qed.

(** X13. [Color.from_rgb_int] reads the low 24 bits only: integers that
    differ by a multiple of 2^24, negative ones included, give the same
    Color. *)
Theorem from_rgb_int_low_bits (x k : Z) :
  ColorM.from_rgb_int (x + k * 16777216) = ColorM.from_rgb_int x.
Proof.
  unfold ColorM.from_rgb_int.
  assert (Hland : forall y, Z.land y 255 = y mod 256)
    by (intros y; change 255 with (Z.ones 8); apply Z.land_ones; lia).
  rewrite !Hland, !Z.shiftr_div_pow2 by lia.
  change (2 ^ 16) with 65536. change (2 ^ 8) with 256.
  f_equal; Z.div_mod_to_equations; lia.
Qed.

Example from_rgb_int_minus_one : ColorM.from_rgb_int (-1) = mkColor 255 255 255.
Proof. reflexivity. Qed.

(** ** The colour setter *)

(** X14. The colour setter refuses, before any call on the bulb and
    without touching the Light, a value that is no Color, string or tuple
    ([ValueError]), a string that is no hex colour ([ValueError] "Hex color
    value supplied is invalid") and a tuple that has not three components
    ([TypeError]); for a hex string it accepts, the bulb is sent the parsed
    channels, each in [0, 255], and that Color is cached. *)
Theorem color_setter_arguments (bulb : Bulb) (h : heap) :
  LightM.set_color_prop bulb AOther h
    = (Raise (ValueError "Color must be Color object, hex string or RGB tuple"), h)
  /\ (forall (s : string) (e : exn),
        ColorM.from_hex s = Raise e ->
        LightM.set_color_prop bulb (AStr s) h
          = (Raise (ValueError "Hex color value supplied is invalid"), h))
  /\ (forall t : list Z,
        List.length t <> 3%nat ->
        LightM.set_color_prop bulb (ATuple t) h = (Raise TypeError, h))
  /\ (forall (s : string) (c : Color),
        ColorM.from_hex s = Ok c ->
        accepts bulb (set_rgb (red c) (green c) (blue c)) = true ->
        channels_in_range c
        /\ LightM.set_color_prop bulb (AStr s) h
           = (Ok tt, mkHeap (with_color (Some c) (self h))
                            (issued h ++ [set_rgb (red c) (green c) (blue c)])%list)).
Proof.
  split; [reflexivity |]. split; [| split].
  - intros s e Hparse. pose proof (from_hex_raises s e Hparse) as ->.
    unfold_light. rewrite Hparse. reflexivity.
  - intros t Hlen. unfold_light.
    destruct t as [| r [| g [| b [| x rest]]]]; try reflexivity.
    cbn in Hlen. congruence.
  - intros s c Hparse Htaken. split; [exact (from_hex_in_range s c Hparse) |].
    unfold_light. rewrite Hparse. cbn. rewrite Htaken. reflexivity.
Qed.

Lemma color_setter_arguments_witness :
  LightM.set_color_prop Sample.responsive (AStr "green") Sample.lamp
    = (Raise (ValueError "Hex color value supplied is invalid"), Sample.lamp)
  /\ LightM.set_color_prop Sample.responsive (ATuple [1; 2]) Sample.lamp
    = (Raise TypeError, Sample.lamp)
  /\ LightM.set_color_prop Sample.responsive (AStr "#F80") Sample.lamp
    = (Ok tt, mkHeap (with_color (Some (mkColor 255 136 0)) (self Sample.lamp))
                     (issued Sample.lamp ++ [set_rgb 255 136 0])%list).
Proof.
  destruct (color_setter_arguments Sample.responsive Sample.lamp)
    as (_ & Hstring & Htuple & Hhex).
  split; [| split].
  - apply (Hstring "green" (ValueError "Hex color value supplied is invalid")). reflexivity.
  - apply (Htuple [1; 2]). cbn. lia.
  - apply (Hhex "#F80" (mkColor 255 136 0)); reflexivity.
Defined.

(** ** notify with explicit targets *)

Lemma for_each_bulbs_taken (network : string -> Bulb) (flow : Flow) (addresses : list string) :
  forall net : list (string * call),
    (forall a : string, In a addresses -> accepts (network a) (start_flow flow) = true) ->
    for_each (List.map PBulb addresses) (fun bulb => call_start_flow network bulb flow) net
      = (Ok tt, (net ++ List.map (fun a => (a, start_flow flow)) addresses)%list).
Proof.
  induction addresses as [| a rest IH]; intros net Htaken; cbn [List.map for_each].
  - unfold ret. rewrite app_nil_r. reflexivity.
  - unfold bind. cbn [call_start_flow].
    rewrite (Htaken a) by (left; reflexivity).
    rewrite IH by (intros b Hb; apply Htaken; right; exact Hb).
    rewrite <- app_assoc. reflexivity.
Qed.

Lemma for_each_bulbs_refused (network : string -> Bulb) (flow : Flow)
    (before : list string) (a : string) (after : list string) :
  forall net : list (string * call),
    (forall b : string, In b before -> accepts (network b) (start_flow flow) = true) ->
    accepts (network a) (start_flow flow) = false ->
    for_each (List.map PBulb (before ++ a :: after))
             (fun bulb => call_start_flow network bulb flow) net
      = (Raise BulbException,
         (net ++ List.map (fun b => (b, start_flow flow)) (before ++ [a]))%list).
Proof.
  induction before as [| b rest IH]; intros net Htaken Hrefused;
    cbn [List.map for_each app].
  - unfold bind. cbn [call_start_flow]. rewrite Hrefused. reflexivity.
  - unfold bind. cbn [call_start_flow].
    rewrite (Htaken b) by (left; reflexivity).
    unfold bind in IH.
    rewrite IH by (first [exact Hrefused | intros x Hx; apply Htaken; right; exact Hx]).
    rewrite <- app_assoc. reflexivity.
Qed.

(** X15. [notify] with one or more bulbs of the transport as targets, all
    of which take the flow, starts on each of them, once and in the order
    given, the pulse of three repeats in the colour of the level and with
    the configured duration; the fleet and its default flags play no part. *)
Theorem notify_pulses_targets
    (notify_duration : Z) (network : string -> Bulb) (lights : list Light)
    (level : Z * Z * Z) (addresses : list string) (net : list (string * call)) :
  addresses <> [] ->
  (forall (a : string) (flow : Flow), In a addresses ->
     accepts (network a) (start_flow flow) = true) ->
  notify notify_duration network lights level (List.map PBulb addresses) net
    = (Ok tt,
       (net ++ List.map (fun a => (a, start_flow (notification_flow notify_duration level)))
                        addresses)%list).
Proof.
  intros Hsome Htaken. destruct level as [[r g] b]. unfold notify, notification_flow.
  destruct addresses as [| a rest]; [congruence |].
  cbn [List.map List.length Nat.eqb].
  apply (for_each_bulbs_taken network _ (a :: rest)).
  intros x Hx. apply Htaken. exact Hx.
Qed.

Lemma notify_pulses_targets_witness :
  notify 500 (fun _ => Sample.responsive) [] NotificationLevel.ERROR
         [PBulb "192.168.1.10"; PBulb "192.168.1.11"] []
    = (Ok tt,
       [("192.168.1.10", start_flow (mkFlow 3 (pulse 255 0 50 500)));
        ("192.168.1.11", start_flow (mkFlow 3 (pulse 255 0 50 500)))]).
Proof.
  apply (notify_pulses_targets 500 (fun _ => Sample.responsive) [] NotificationLevel.ERROR
           ["192.168.1.10"; "192.168.1.11"] []).
  - discriminate.
  - intros a flow _. reflexivity.
Defined.

(** X16. [notify] stops at the first target that refuses the flow: the
    [BulbException] leaves [notify] uncaught, the targets before it have
    been pulsed, the refusing one has been called, and none after it is. *)
Theorem notify_stops_at_refusal
    (notify_duration : Z) (network : string -> Bulb) (lights : list Light)
    (level : Z * Z * Z) (before : list string) (a : string) (after : list string)
    (net : list (string * call)) :
  (forall (b : string) (flow : Flow), In b before ->
     accepts (network b) (start_flow flow) = true) ->
  accepts (network a) (start_flow (notification_flow notify_duration level)) = false ->
  notify notify_duration network lights level (List.map PBulb (before ++ a :: after)) net
    = (Raise BulbException,
       (net ++ List.map (fun b => (b, start_flow (notification_flow notify_duration level)))
                        (before ++ [a]))%list).
Proof.
  intros Htaken Hrefused. destruct level as [[r g] b]. unfold notify, notification_flow in *.
  replace (List.length (List.map PBulb (before ++ a :: after)) =? 0)%nat with false
    by (rewrite length_map, length_app; cbn; symmetry; apply Nat.eqb_neq; lia).
  apply for_each_bulbs_refused; [| exact Hrefused].
  intros x Hx. apply Htaken. exact Hx.
Qed.

Lemma notify_stops_at_refusal_witness :
  let network := fun a : string =>
    if String.eqb a "192.168.1.11" then Sample.unreachable else Sample.responsive in
  notify 500 network [] NotificationLevel.OK
         [PBulb "192.168.1.10"; PBulb "192.168.1.11"; PBulb "192.168.1.12"] []
    = (Raise BulbException,
       [("192.168.1.10", start_flow (mkFlow 3 (pulse 0 255 100 500)));
        ("192.168.1.11", start_flow (mkFlow 3 (pulse 0 255 100 500)))]).
Proof.
  intros network.
  apply (notify_stops_at_refusal 500 network [] NotificationLevel.OK
           ["192.168.1.10"] "192.168.1.11" ["192.168.1.12"] []).
  - intros b flow [<- | []]. reflexivity.
  - reflexivity.
Defined.

(** ** Lookups *)

(** X17. The lookup by name returns the first Light of the fleet whose
    stored name equals the query in upper case, and [None] exactly when no
    Light has that name. *)
Theorem lookup_by_name_first_match
    (unicode_upper : N -> list N) (s : pystr) :
  (forall (before : list Light) (l : Light) (after : list Light),
     name l = upper unicode_upper s ->
     (forall p : Light, In p before -> name p <> upper unicode_upper s) ->
     get_light_by_name unicode_upper (before ++ l :: after) s = Some l)
  /\ (forall lights : list Light,
        get_light_by_name unicode_upper lights s = None
        <-> (forall l : Light, In l lights -> name l <> upper unicode_upper s)).
Proof.
  split.
  - induction before as [| p rest IH]; intros l after Hname Hnone; cbn.
    + rewrite bool_decide_eq_true_2 by exact Hname. reflexivity.
    + rewrite bool_decide_eq_false_2 by (apply Hnone; left; reflexivity).
      apply IH; [exact Hname |]. intros q Hq. apply Hnone. right. exact Hq.
  - induction lights as [| light rest IH]; cbn.
    + split; [intros _ l [] | reflexivity].
    + destruct (bool_decide (name light = upper unicode_upper s)) eqn:Hhere.
      * apply bool_decide_eq_true in Hhere. split; [discriminate |].
        intros Hnone. exfalso. apply (Hnone light); [left; reflexivity | exact Hhere].
      * apply bool_decide_eq_false in Hhere. rewrite IH. split.
        -- intros Hrest l [<- | Hl]; [exact Hhere | apply Hrest; exact Hl].
        -- intros Hall l Hl. apply Hall. right. exact Hl.
Qed.

Lemma lookup_by_name_first_match_witness :
  get_light_by_name Sample.no_mapping
    ([Sample.desk] ++ self Sample.lamp :: [self Sample.lamp_on]) (pystr_of_string "lamp")
    = Some (self Sample.lamp).
Proof.
  apply (proj1 (lookup_by_name_first_match Sample.no_mapping (pystr_of_string "lamp"))).
  - reflexivity.
  - intros p [<- | []]. discriminate.
Defined.

Lemma upper_char_ascii (unicode_upper : N -> list N) (c : N) :
  is_ascii c ->
  exists d : N,
    upper_char unicode_upper c = [d] /\ is_ascii d /\ upper_char unicode_upper d = [d].
Proof.
  unfold is_ascii, upper_char. intros Hc.
  destruct ((97 <=? c) && (c <=? 122))%N eqn:Hlow.
  - apply andb_true_iff in Hlow. destruct Hlow as [H1 H2].
    apply N.leb_le in H1, H2.
    exists (c - 32)%N. split; [reflexivity | split; [lia |]].
    replace (97 <=? c - 32)%N with false by (symmetry; apply N.leb_gt; lia).
    cbn [andb].
    replace (c - 32 <? 128)%N with true by (symmetry; apply N.ltb_lt; lia).
    reflexivity.
  - replace (c <? 128)%N with true by (symmetry; apply N.ltb_lt; lia).
    exists c. split; [reflexivity | split; [exact Hc |]].
    rewrite Hlow.
    replace (c <? 128)%N with true by (symmetry; apply N.ltb_lt; lia).
    reflexivity.
Qed.

Lemma upper_ascii_idempotent (unicode_upper : N -> list N) (s : pystr) :
  Forall is_ascii s ->
  upper unicode_upper (upper unicode_upper s) = upper unicode_upper s
  /\ List.length (upper unicode_upper s) = List.length s.
Proof.
  unfold upper. induction 1 as [| c rest Hc Hrest IH]; cbn [flat_map]; [auto |].
  destruct (upper_char_ascii unicode_upper c Hc) as (d & -> & _ & Hd).
  destruct IH as [IH1 IH2].
  cbn [app flat_map List.length]. rewrite Hd, IH1, IH2. auto.
Qed.

(** X18. For a query of ASCII characters the lookup by name does not
    depend on the case of the query: upper-casing is idempotent and keeps
    the length, so the query and its upper-case form find the same Light. *)
Theorem lookup_by_name_ignores_query_case
    (unicode_upper : N -> list N) (lights : list Light) (s : pystr) :
  Forall is_ascii s ->
  upper unicode_upper (upper unicode_upper s) = upper unicode_upper s
  /\ List.length (upper unicode_upper s) = List.length s
  /\ get_light_by_name unicode_upper lights (upper unicode_upper s)
     = get_light_by_name unicode_upper lights s.
Proof.
  intros Hascii.
  destruct (upper_ascii_idempotent unicode_upper s Hascii) as [Hidem Hlen].
  split; [exact Hidem | split; [exact Hlen |]].
  induction lights as [| light rest IH]; cbn; [reflexivity |].
  rewrite Hidem, IH. reflexivity.
Qed.

Lemma lookup_by_name_ignores_query_case_witness :
  get_light_by_name Sample.no_mapping [self Sample.lamp]
    (upper Sample.no_mapping (pystr_of_string "Lamp"))
  = get_light_by_name Sample.no_mapping [self Sample.lamp] (pystr_of_string "Lamp").
Proof.
  apply (lookup_by_name_ignores_query_case Sample.no_mapping [self Sample.lamp]
           (pystr_of_string "Lamp")).
  repeat constructor.
Defined.

(** ** Name, default flag and database *)

(** X19. The [name] setter refuses a name longer than the configured
    maximum with a [ValueError] that quotes the maximum, saving nothing and
    leaving the Light as it was; any other name, the empty one included, is
    cached and saved once, with the Light's address, default flag and id. *)
Theorem name_setter_length_check
    (max_light_length : Z) (new_name : pystr) (st : stored) :
  (max_light_length < Z.of_nat (List.length new_name) ->
   set_name_prop max_light_length new_name st
     = (Raise (ValueError ("Light name may have a maximum of "
                           +:+ pretty max_light_length +:+ " characters")), st))
  /\ (Z.of_nat (List.length new_name) <= max_light_length ->
      set_name_prop max_light_length new_name st
        = (Ok tt,
           mkStored (with_name new_name (cached st))
                    (saved st ++ [mkSaved (ip (cached st)) new_name
                                          (is_default (cached st)) (_id (cached st))]))).
Proof.
  unfold set_name_prop. split; intros Hlen.
  - replace (max_light_length <? Z.of_nat (List.length new_name)) with true
      by (symmetry; apply Z.ltb_lt; exact Hlen).
    reflexivity.
  - replace (max_light_length <? Z.of_nat (List.length new_name)) with false
      by (symmetry; apply Z.ltb_ge; exact Hlen).
    reflexivity.
Qed.

Lemma name_setter_length_check_witness :
  set_name_prop 4 (pystr_of_string "LIVING ROOM") (mkStored Sample.desk [])
    = (Raise (ValueError "Light name may have a maximum of 4 characters"),
       mkStored Sample.desk [])
  /\ fst (set_name_prop 4 (pystr_of_string "DESK") (mkStored Sample.desk [])) = Ok tt.
Proof.
  destruct (name_setter_length_check 4 (pystr_of_string "LIVING ROOM")
              (mkStored Sample.desk [])) as [Hlong _].
  destruct (name_setter_length_check 4 (pystr_of_string "DESK")
              (mkStored Sample.desk [])) as [_ Hshort].
  split.
  - apply Hlong. cbn. lia.
  - rewrite Hshort; [reflexivity | cbn; lia].
Defined.

Lemma perform_identity_in_sync (max_light_length : Z) (o : identity_operation) (st : stored) :
  in_sync st -> in_sync (snd (perform_identity max_light_length o st)).
Proof.
  unfold in_sync. intros Hsync.
  destruct o as [new_name | new_is_default]; cbn [perform_identity].
  - unfold set_name_prop.
    destruct (max_light_length <? Z.of_nat (List.length new_name)); [exact Hsync |].
    cbn. intros r. rewrite last_snoc. intros [= <-]. reflexivity.
  - cbn. intros r. rewrite last_snoc. intros [= <-]. reflexivity.
Qed.

(** X20. The database never disagrees with the Light: after any sequence
    of [name] and [is_default] assignments, refused ones included, the
    record last saved is the Light's address, name, default flag and id;
    the address and the id are never changed. *)
Theorem database_in_sync
    (max_light_length : Z) (history : list identity_operation) (st : stored) :
  in_sync st ->
  in_sync (run_identity max_light_length history st)
  /\ ip (cached (run_identity max_light_length history st)) = ip (cached st)
  /\ _id (cached (run_identity max_light_length history st)) = _id (cached st).
Proof.
  revert st. induction history as [| o rest IH]; intros st Hsync; cbn [run_identity].
  - auto.
  - destruct (IH _ (perform_identity_in_sync max_light_length o st Hsync))
      as (Hs & Hip & Hid).
    split; [exact Hs |]. rewrite Hip, Hid.
    destruct o as [new_name | new_is_default]; cbn [perform_identity].
    + unfold set_name_prop.
      destruct (max_light_length <? Z.of_nat (List.length new_name)); cbn; auto.
    + cbn. auto.
Qed.

Lemma database_in_sync_witness :
  let st := run_identity 10
              [SetName (pystr_of_string "DESK"); SetIsDefault true;
               SetName (pystr_of_string "A NAME THAT IS TOO LONG")]
              (mkStored Sample.desk []) in
  in_sync st /\ ip (cached st) = "192.168.1.11" /\ _id (cached st) = "5f1e".
Proof.
  intros st.
  apply (database_in_sync 10
           [SetName (pystr_of_string "DESK"); SetIsDefault true;
            SetName (pystr_of_string "A NAME THAT IS TOO LONG")]
           (mkStored Sample.desk [])).
  intros r Hr. discriminate Hr.
Defined.

(** ** Discovery *)

Lemma get_light_by_ip_None (ls : list Light) (a : string) :
  get_light_by_ip ls a = None <-> a ∉ ip <$> ls.
Proof.
  induction ls as [| l rest IH]; cbn.
  - split; [intros _; apply not_elem_of_nil | reflexivity].
  - destruct (String.eqb_spec (ip l) a) as [Heq | Hne].
    + split; [discriminate |]. intros Hnot. exfalso. apply Hnot. rewrite Heq. left.
    + rewrite IH. rewrite not_elem_of_cons. split; [intros H; split; congruence | tauto].
Qed.

Lemma get_light_by_ip_Some (ls : list Light) (a : string) (l : Light) :
  get_light_by_ip ls a = Some l -> l ∈ ls /\ ip l = a.
Proof.
  induction ls as [| x rest IH]; cbn; [discriminate |].
  destruct (String.eqb_spec (ip x) a) as [Heq | Hne].
  - intros [= <-]. split; [left | exact Heq].
  - intros Hrest. destruct (IH Hrest). split; [right; assumption | assumption].
Qed.

Lemma init_identity (bulb : Bulb) (ip0 id0 : string) (name0 : pystr)
    (default0 connected0 : bool) :
  let l := self (snd (LightM.init bulb ip0 id0 name0 default0 connected0)) in
  ip l = ip0 /\ _id l = id0 /\ name l = name0 /\ is_default l = default0
  /\ (is_connected l = true -> connected0 = true /\ accepts bulb get_properties = true).
Proof.
  cbv zeta. unfold LightM.init.
  destruct connected0; [| cbn; repeat split; discriminate].
  unfold_light. cbn. destruct (accepts bulb get_properties) eqn:Hanswer; cbn.
  - split_cases; cbn; repeat split; reflexivity.
  - repeat split; discriminate.
Qed.

(** The constructor raises only out of its refresh, which then was
    answered. *)
Lemma init_raises (bulb : Bulb) (ip0 id0 : string) (name0 : pystr)
    (default0 connected0 : bool) (e : exn) :
  fst (LightM.init bulb ip0 id0 name0 default0 connected0) = Raise e ->
  connected0 = true /\ accepts bulb get_properties = true
  /\ forall h : heap, fst (LightM.refresh_props bulb h) = Raise e.
Proof.
  unfold LightM.init. destruct connected0; [| discriminate].
  unfold_light. cbn. destruct (accepts bulb get_properties) eqn:Hanswer; cbn.
  - split_cases; intros Hraise; try discriminate Hraise;
      (split; [reflexivity | split; [reflexivity | intros h'; exact Hraise]]).
  - discriminate.
Qed.

Lemma construct_light_Ok (network : string -> Bulb) (connected_bulbs : list string)
    (r : db_light) (l : Light) :
  construct_light network connected_bulbs r = Ok l ->
  l = self (snd (LightM.init (network (db_ip r)) (db_ip r) (db_id r) (db_name r)
                             (db_is_default r) (bool_decide (db_ip r ∈ connected_bulbs)))).
Proof.
  unfold construct_light.
  destruct (LightM.init _ _ _ _ _ _) as [[u | e] h]; [| discriminate].
  intros [= <-]. reflexivity.
Qed.

Lemma construct_light_ip (network : string -> Bulb) (connected_bulbs : list string)
    (r : db_light) (l : Light) :
  construct_light network connected_bulbs r = Ok l -> ip l = db_ip r.
Proof. intros Hbuilt. apply construct_light_Ok in Hbuilt. subst l. apply init_identity. Qed.

(** Whether the construction raises depends on the address alone. *)
Lemma construct_light_same_address (network : string -> Bulb)
    (connected_bulbs : list string) (r r' : db_light) (e : exn) :
  db_ip r' = db_ip r ->
  construct_light network connected_bulbs r = Raise e ->
  construct_light network connected_bulbs r' = Raise e.
Proof.
  intros Hsame. unfold construct_light. rewrite Hsame.
  destruct (LightM.init (network (db_ip r)) (db_ip r) (db_id r) (db_name r)
              (db_is_default r) (bool_decide (db_ip r ∈ connected_bulbs)))
    as [[u | e0] h] eqn:Hinit; [discriminate |].
  intros [= ->].
  assert (Hfst : fst (LightM.init (network (db_ip r)) (db_ip r) (db_id r) (db_name r)
                        (db_is_default r) (bool_decide (db_ip r ∈ connected_bulbs)))
                 = Raise e) by (rewrite Hinit; reflexivity).
  apply init_raises in Hfst. destruct Hfst as (Hfound & _ & Hrefresh).
  rewrite Hfound. unfold LightM.init.
  match goal with
  | |- context [LightM.refresh_props ?b ?h0] =>
      specialize (Hrefresh h0); destruct (LightM.refresh_props b h0) as [res h1]
  end.
  cbn in Hrefresh. subst res. reflexivity.
Qed.

(** X21. A Light built by the discovery carries the address, id, name and
    default flag of its database record, and it starts connected only if
    the probe found its address and the bulb answered the refresh of the
    constructor; the constructor raises, and builds no Light, only when the
    probe found the address and the bulb answered that refresh. *)
Theorem constructed_light_fields (network : string -> Bulb) (connected_bulbs : list string)
    (r : db_light) :
  (forall l : Light,
     construct_light network connected_bulbs r = Ok l ->
     ip l = db_ip r /\ _id l = db_id r /\ name l = db_name r
     /\ is_default l = db_is_default r
     /\ (is_connected l = true ->
         db_ip r ∈ connected_bulbs /\ accepts (network (db_ip r)) get_properties = true))
  /\ (forall e : exn,
        construct_light network connected_bulbs r = Raise e ->
        db_ip r ∈ connected_bulbs /\ accepts (network (db_ip r)) get_properties = true).
Proof.
  split.
  - intros l Hbuilt. apply construct_light_Ok in Hbuilt. subst l.
    destruct (init_identity (network (db_ip r)) (db_ip r) (db_id r) (db_name r)
                (db_is_default r) (bool_decide (db_ip r ∈ connected_bulbs)))
      as (Hip & Hid & Hname & Hdefault & Hconn).
    repeat split; try assumption.
    + destruct (Hconn H) as [Hfound _]. apply bool_decide_eq_true in Hfound. exact Hfound.
    + destruct (Hconn H) as [_ Hanswer]. exact Hanswer.
  - intros e. unfold construct_light.
    destruct (LightM.init (network (db_ip r)) (db_ip r) (db_id r) (db_name r)
                (db_is_default r) (bool_decide (db_ip r ∈ connected_bulbs)))
      as [[u | e0] h] eqn:Hinit; [discriminate |].
    intros _.
    assert (Hfst : fst (LightM.init (network (db_ip r)) (db_ip r) (db_id r) (db_name r)
                          (db_is_default r) (bool_decide (db_ip r ∈ connected_bulbs)))
                   = Raise e0) by (rewrite Hinit; reflexivity).
    apply init_raises in Hfst. destruct Hfst as (Hfound & Hanswer & _).
    apply bool_decide_eq_true in Hfound. split; assumption.
Qed.

Lemma constructed_light_fields_witness :
  (exists l : Light,
     construct_light home_network ["192.168.1.10"] record_lamp = Ok l
     /\ ip l = "192.168.1.10" /\ name l = pystr_of_string "LAMP")
  /\ "192.168.1.12" ∈ ["192.168.1.12"]
  /\ accepts (house_network "192.168.1.12") get_properties = true.
Proof.
  destruct (constructed_light_fields home_network ["192.168.1.10"] record_lamp)
    as [Hbuilt _].
  destruct (constructed_light_fields house_network ["192.168.1.12"] record_hall)
    as [_ Hraised].
  split.
  - destruct (construct_light home_network ["192.168.1.10"] record_lamp) as [l | e] eqn:Hl;
      [| vm_compute in Hl; discriminate Hl].
    exists l. destruct (Hbuilt l eq_refl) as (Hip & _ & Hname & _).
    split; [reflexivity | split; assumption].
  - apply (Hraised TypeError). vm_compute. reflexivity.
Defined.

Lemma built_app (ps qs : list (result Light)) :
  built (ps ++ qs) = (built ps ++ built qs)%list.
Proof. unfold built. apply flat_map_app. Qed.

Lemma step_grown_from (network : string -> Bulb) (connected_bulbs : list string)
    (db0 : list db_light) (ls0 : list Light) (d d' : discovery) :
  discovery_step network connected_bulbs d d' ->
  grown_from network connected_bulbs db0 ls0 d ->
  grown_from network connected_bulbs db0 ls0 d'.
Proof.
  unfold grown_from.
  intros Hstep (Htodo & new & Hlights & Hnew). cbn in *.
  destruct Hstep as [r rest ls ps l Hfound | r rest ls ps Hnone
                    | rs ls ps1 l ps2 | rs ls ps1 e ps2];
    cbn [todo collection pending] in *.
  - split; [intros x Hx; apply Htodo; right; exact Hx |].
    exists new. split; [exact Hlights | exact Hnew].
  - split; [intros x Hx; apply Htodo; right; exact Hx |].
    exists new. split; [exact Hlights |].
    intros l Hl. rewrite built_app, app_assoc in Hl. apply elem_of_app in Hl.
    destruct Hl as [Hl | Hl]; [apply Hnew; exact Hl |].
    unfold built in Hl. cbn [flat_map] in Hl. rewrite app_nil_r in Hl.
    destruct (construct_light network connected_bulbs r) as [l' | e] eqn:Hbuilt;
      [| inversion Hl].
    apply list_elem_of_singleton in Hl. subst l'.
    exists r. split; [apply Htodo; left | split; [exact Hbuilt |]].
    apply get_light_by_ip_None. apply get_light_by_ip_None in Hnone.
    intros Hin. apply Hnone. rewrite Hlights, fmap_app. apply elem_of_app. left. exact Hin.
  - split; [exact Htodo |].
    exists (new ++ [l])%list. split; [rewrite Hlights, app_assoc; reflexivity |].
    intros x Hx. apply Hnew.
    rewrite built_app in *. change (built (Ok l :: ps2)) with (l :: built ps2).
    rewrite !elem_of_app in Hx. rewrite !elem_of_app, elem_of_cons.
    rewrite list_elem_of_singleton in Hx. tauto.
  - split; [exact Htodo |].
    exists new. split; [exact Hlights |].
    intros x Hx. apply Hnew.
    rewrite built_app in *. change (built (Raise e :: ps2)) with (built ps2). exact Hx.
Qed.

Lemma rtc_grown_from (network : string -> Bulb) (connected_bulbs : list string)
    (db0 : list db_light) (ls0 : list Light) (d d' : discovery) :
  rtc (discovery_step network connected_bulbs) d d' ->
  grown_from network connected_bulbs db0 ls0 d ->
  grown_from network connected_bulbs db0 ls0 d'.
Proof.
  induction 1 as [| x y z Hxy _ IH]; [auto |].
  intros Hx. apply IH. exact (step_grown_from network connected_bulbs db0 ls0 x y Hxy Hx).
Qed.

Lemma pass_grown_from (network : string -> Bulb) (connected_bulbs : list string)
    (db : list db_light) (before after : list Light) :
  discovery_pass network connected_bulbs db before after ->
  exists new : list Light,
    after = (before ++ new)%list
    /\ forall l : Light, l ∈ new ->
         exists r : db_light,
           r ∈ db /\ construct_light network connected_bulbs r = Ok l
           /\ get_light_by_ip before (db_ip r) = None.
Proof.
  intros Hpass.
  assert (Hstart : grown_from network connected_bulbs db before (mkDiscovery db before [])).
  { split; [intros r Hr; exact Hr |].
    exists []. split; [symmetry; apply app_nil_r |]. intros l Hl. inversion Hl. }
  destruct (rtc_grown_from _ _ _ _ _ _ Hpass Hstart) as (_ & new & Hafter & Hnew).
  cbn in *. exists new. split; [exact Hafter |].
  intros l Hl. apply Hnew. rewrite app_nil_r. exact Hl.
Qed.

Lemma step_distinct (network : string -> Bulb) (connected_bulbs : list string)
    (d d' : discovery) :
  discovery_step network connected_bulbs d d' ->
  distinct_addresses d -> distinct_addresses d'.
Proof.
  unfold distinct_addresses.
  intros Hstep (Htodo & Hall & Hpending).
  destruct Hstep as [r rest ls ps l Hfound | r rest ls ps Hnone
                    | rs ls ps1 l ps2 | rs ls ps1 e ps2];
    cbn [todo collection pending] in *.
  - apply NoDup_cons in Htodo. destruct Htodo as [_ Htodo].
    split; [exact Htodo | split; [exact Hall |]].
    intros x Hx. apply Hpending. right. exact Hx.
  - apply NoDup_cons in Htodo. destruct Htodo as [Hfresh Htodo].
    apply get_light_by_ip_None in Hnone.
    rewrite built_app. unfold built at 2 4. cbn [flat_map]. rewrite app_nil_r.
    destruct (construct_light network connected_bulbs r) as [l | e] eqn:Hbuilt.
    + pose proof (construct_light_ip _ _ _ _ Hbuilt) as Hip.
      split; [exact Htodo | split].
      * rewrite app_assoc, fmap_app. cbn [fmap list_fmap].
        apply NoDup_app. split; [exact Hall | split; [| apply NoDup_singleton]].
        intros a Ha Hsingle. apply list_elem_of_singleton in Hsingle.
        rewrite Hip in Hsingle. subst a.
        rewrite fmap_app in Ha. apply elem_of_app in Ha. destruct Ha as [Ha | Ha].
        -- exact (Hnone Ha).
        -- apply (Hpending r); [left | exact Ha].
      * intros x Hx. rewrite fmap_app. cbn [fmap list_fmap]. rewrite elem_of_app.
        intros [Hin | Hin].
        -- apply (Hpending x); [right; exact Hx | exact Hin].
        -- apply list_elem_of_singleton in Hin. rewrite Hip in Hin.
           apply Hfresh. rewrite <- Hin. apply list_elem_of_fmap_2. exact Hx.
    + rewrite app_nil_r.
      split; [exact Htodo | split; [exact Hall |]].
      intros x Hx. apply Hpending. right. exact Hx.
  - rewrite built_app in *. change (built (Ok l :: ps2)) with (l :: built ps2) in *.
    split; [exact Htodo | split].
    + assert (Hperm : ((ls ++ [l]) ++ built ps1 ++ built ps2)%list
                      ≡ₚ (ls ++ built ps1 ++ l :: built ps2)%list).
      { rewrite <- app_assoc. cbn [app].
        apply Permutation_app_head. apply Permutation_middle. }
      rewrite Hperm. exact Hall.
    + intros x Hx Hin. apply (Hpending x Hx).
      rewrite fmap_app in Hin. rewrite fmap_app. cbn [fmap list_fmap].
      rewrite elem_of_app in Hin. rewrite elem_of_app, elem_of_cons. tauto.
  - rewrite built_app in *. change (built (Raise e :: ps2)) with (built ps2) in *.
    split; [exact Htodo | split; [exact Hall | exact Hpending]].
Qed.

Lemma rtc_distinct (network : string -> Bulb) (connected_bulbs : list string)
    (d d' : discovery) :
  rtc (discovery_step network connected_bulbs) d d' ->
  distinct_addresses d -> distinct_addresses d'.
Proof.
  induction 1 as [| x y z Hxy _ IH]; [auto |].
  intros Hx. apply IH. exact (step_distinct network connected_bulbs x y Hxy Hx).
Qed.

Lemma step_covered (network : string -> Bulb) (connected_bulbs : list string)
    (db0 : list db_light) (d d' : discovery) :
  discovery_step network connected_bulbs d d' ->
  covered network connected_bulbs db0 d -> covered network connected_bulbs db0 d'.
Proof.
  unfold covered. intros Hstep Hcov x Hx. specialize (Hcov x Hx).
  destruct Hstep as [r rest ls ps l Hfound | r rest ls ps Hnone
                    | rs ls ps1 l ps2 | rs ls ps1 e ps2];
    cbn [todo collection pending] in *.
  - destruct Hcov as [Htodo | Hhas]; [| right; exact Hhas].
    apply elem_of_cons in Htodo. destruct Htodo as [-> | Hrest]; [| left; exact Hrest].
    right. left. apply get_light_by_ip_Some in Hfound. destruct Hfound as [Hl Hip].
    rewrite fmap_app. apply elem_of_app. left. rewrite <- Hip.
    apply list_elem_of_fmap_2. exact Hl.
  - rewrite built_app. unfold built at 2. cbn [flat_map]. rewrite app_nil_r.
    destruct Hcov as [Htodo | [Hhas | Hraised]].
    + apply elem_of_cons in Htodo. destruct Htodo as [-> | Hrest]; [| left; exact Hrest].
      right. destruct (construct_light network connected_bulbs r) as [l | e] eqn:Hbuilt.
      * left. rewrite !fmap_app. cbn [fmap list_fmap]. rewrite !elem_of_app. right. right.
        rewrite (construct_light_ip _ _ _ _ Hbuilt). left.
      * right. exists e. reflexivity.
    + right. left. rewrite app_assoc, fmap_app. apply elem_of_app. left. exact Hhas.
    + right. right. exact Hraised.
  - destruct Hcov as [Htodo | [Hhas | Hraised]];
      [left; exact Htodo | right; left | right; right; exact Hraised].
    rewrite built_app in *. change (built (Ok l :: ps2)) with (l :: built ps2) in *.
    apply list_elem_of_fmap in Hhas. destruct Hhas as (y & -> & Hy).
    apply list_elem_of_fmap_2.
    rewrite !elem_of_app, elem_of_cons in Hy.
    rewrite !elem_of_app, list_elem_of_singleton. tauto.
  - rewrite built_app in *. change (built (Raise e :: ps2)) with (built ps2) in *.
    exact Hcov.
Qed.

Lemma rtc_covered (network : string -> Bulb) (connected_bulbs : list string)
    (db0 : list db_light) (d d' : discovery) :
  rtc (discovery_step network connected_bulbs) d d' ->
  covered network connected_bulbs db0 d -> covered network connected_bulbs db0 d'.
Proof.
  induction 1 as [| x y z Hxy _ IH]; [auto |].
  intros Hx. apply IH. exact (step_covered network connected_bulbs db0 x y Hxy Hx).
Qed.

Lemma drain_pending (network : string -> Bulb) (connected_bulbs : list string)
    (rs : list db_light) (ps : list (result Light)) :
  forall ls : list Light,
    rtc (discovery_step network connected_bulbs)
        (mkDiscovery rs ls ps) (mkDiscovery rs (ls ++ built ps) []).
Proof.
  induction ps as [| [l | e] rest IH]; intros ls.
  - cbn. rewrite app_nil_r. apply rtc_refl.
  - eapply rtc_l; [exact (step_done network connected_bulbs rs ls [] l rest) |].
    change (built (Ok l :: rest)) with (l :: built rest).
    cbn [app]. replace (ls ++ l :: built rest)%list with ((ls ++ [l]) ++ built rest)%list
      by (rewrite <- app_assoc; reflexivity).
    apply IH.
  - eapply rtc_l; [exact (step_failed network connected_bulbs rs ls [] e rest) |].
    change (built (Raise e :: rest)) with (built rest). cbn [app]. apply IH.
Qed.

Lemma in_turn_is_pass (network : string -> Bulb) (connected_bulbs : list string)
    (db : list db_light) :
  forall ls : list Light,
    discovery_pass network connected_bulbs db ls
      (discover_in_turn network connected_bulbs db ls).
Proof.
  unfold discovery_pass.
  induction db as [| r rest IH]; intros ls; cbn [discover_in_turn].
  - apply rtc_refl.
  - destruct (get_light_by_ip ls (db_ip r)) as [l |] eqn:Hlookup.
    + eapply rtc_l; [exact (step_known network connected_bulbs r rest ls [] l Hlookup) |].
      apply IH.
    + eapply rtc_l; [exact (step_submit network connected_bulbs r rest ls [] Hlookup) |].
      cbn [app].
      destruct (construct_light network connected_bulbs r) as [l | e].
      * eapply rtc_l; [exact (step_done network connected_bulbs rest ls [] l []) |].
        cbn [app]. apply IH.
      * eapply rtc_l; [exact (step_failed network connected_bulbs rest ls [] e []) |].
        cbn [app]. apply IH.
Qed.

(** X22. A discovery pass only appends to the collection: the Lights that
    were there stay, in their order, and every Light the pass adds was
    built from a record of the database whose address had no Light before
    the pass, however the constructions interleave with the walk. *)
Theorem discovery_only_appends
    (network : string -> Bulb) (connected_bulbs : list string)
    (db : list db_light) (before after : list Light) :
  discovery_pass network connected_bulbs db before after ->
  exists new : list Light,
    after = (before ++ new)%list
    /\ forall l : Light, l ∈ new ->
         exists r : db_light,
           r ∈ db /\ construct_light network connected_bulbs r = Ok l
           /\ get_light_by_ip before (db_ip r) = None.
Proof. apply pass_grown_from. Qed.

Lemma discovery_only_appends_witness :
  exists new : list Light,
    discover_in_turn home_network ["192.168.1.10"] [record_lamp; record_desk] [Sample.desk]
      = ([Sample.desk] ++ new)%list
    /\ forall l : Light, l ∈ new ->
         exists r : db_light,
           r ∈ [record_lamp; record_desk]
           /\ construct_light home_network ["192.168.1.10"] r = Ok l
           /\ get_light_by_ip [Sample.desk] (db_ip r) = None.
Proof.
  apply (discovery_only_appends home_network ["192.168.1.10"]
           [record_lamp; record_desk] [Sample.desk]).
  apply in_turn_is_pass.
Defined.

(** X23. When the records of the database have distinct addresses and so
    have the Lights of the collection, they still have after a discovery
    pass, whatever the interleaving: no address gets a second Light. *)
Theorem discovery_keeps_addresses_distinct
    (network : string -> Bulb) (connected_bulbs : list string)
    (db : list db_light) (before after : list Light) :
  NoDup (db_ip <$> db) ->
  NoDup (ip <$> before) ->
  discovery_pass network connected_bulbs db before after ->
  NoDup (ip <$> after).
Proof.
  intros Hdb Hbefore Hpass.
  assert (Hstart : distinct_addresses (mkDiscovery db before [])).
  { split; [exact Hdb | split].
    - cbn. rewrite app_nil_r. exact Hbefore.
    - intros r _. cbn. apply not_elem_of_nil. }
  destruct (rtc_distinct _ _ _ _ Hpass Hstart) as (_ & Hafter & _).
  cbn in Hafter. rewrite app_nil_r in Hafter. exact Hafter.
Qed.

Lemma discovery_keeps_addresses_distinct_witness :
  NoDup (ip <$> discover_in_turn home_network ["192.168.1.10"]
                  [record_lamp; record_desk] [Sample.desk]).
Proof.
  apply (discovery_keeps_addresses_distinct home_network ["192.168.1.10"]
           [record_lamp; record_desk] [Sample.desk]).
  - apply (bool_decide_unpack _). vm_compute. exact I.
  - apply (bool_decide_unpack _). vm_compute. exact I.
  - apply in_turn_is_pass.
Defined.

(** X24. After a discovery pass every record of the database has a Light
    with its address in the collection, unless the construction of its
    Light raises; a record whose construction raises and whose address had
    no Light before the pass has none after it: the exception stays in the
    callback of the pool and nothing is appended. *)
Theorem discovery_covers_database
    (network : string -> Bulb) (connected_bulbs : list string)
    (db : list db_light) (before after : list Light) (r : db_light) :
  discovery_pass network connected_bulbs db before after ->
  r ∈ db ->
  ((exists l : Light, l ∈ after /\ ip l = db_ip r)
   \/ exists e : exn, construct_light network connected_bulbs r = Raise e)
  /\ (forall e : exn,
        construct_light network connected_bulbs r = Raise e ->
        get_light_by_ip before (db_ip r) = None ->
        get_light_by_ip after (db_ip r) = None).
Proof.
  intros Hpass Hr. split.
  - assert (Hstart : covered network connected_bulbs db (mkDiscovery db before [])).
    { intros x Hx. left. exact Hx. }
    pose proof (rtc_covered _ _ _ _ _ Hpass Hstart r Hr) as Hend.
    cbn in Hend. destruct Hend as [Hnil | [Hin | Hraised]];
      [inversion Hnil | left | right; exact Hraised].
    rewrite app_nil_r in Hin. apply list_elem_of_fmap in Hin.
    destruct Hin as (l & Hip & Hl). exists l. split; [exact Hl | symmetry; exact Hip].
  - intros e Hraised Hnone.
    destruct (pass_grown_from _ _ _ _ _ Hpass) as (new & -> & Hnew).
    apply get_light_by_ip_None. apply get_light_by_ip_None in Hnone.
    rewrite fmap_app, elem_of_app. intros [Hin | Hin]; [exact (Hnone Hin) |].
    apply list_elem_of_fmap in Hin. destruct Hin as (l & Hip & Hl).
    destruct (Hnew l Hl) as (r' & _ & Hbuilt & _).
    pose proof (construct_light_ip _ _ _ _ Hbuilt) as Hip'.
    assert (Hsame : db_ip r' = db_ip r) by congruence.
    rewrite (construct_light_same_address _ _ r r' e Hsame Hraised) in Hbuilt.
    discriminate Hbuilt.
Qed.

Lemma discovery_covers_database_witness :
  let db := [record_lamp; record_hall; record_desk] in
  let found := ["192.168.1.10"; "192.168.1.12"] in
  (exists l : Light, l ∈ discover_in_turn house_network found db [] /\ ip l = "192.168.1.11")
  /\ construct_light house_network found record_hall = Raise TypeError
  /\ get_light_by_ip (discover_in_turn house_network found db []) "192.168.1.12" = None.
Proof.
  intros db found.
  destruct (discovery_covers_database house_network found db []
              (discover_in_turn house_network found db []) record_desk)
    as [Hdesk _]; [apply in_turn_is_pass | right; right; left |].
  destruct (discovery_covers_database house_network found db []
              (discover_in_turn house_network found db []) record_hall)
    as [_ Hhall]; [apply in_turn_is_pass | right; left |].
  split; [| split].
  - destruct Hdesk as [Hlight | [e He]]; [exact Hlight |].
    vm_compute in He. discriminate He.
  - vm_compute. reflexivity.
  - apply (Hhall TypeError); vm_compute; reflexivity.
Defined.

(** X25. A discovery pass can always complete: from every configuration
    of records still to walk, collection and constructions under way, the
    end of the [with] block is reachable; the pass in which each
    construction completes before the walk goes on is one of the passes. *)
Theorem discovery_completes
    (network : string -> Bulb) (connected_bulbs : list string) (d : discovery) :
  rtc (discovery_step network connected_bulbs) d
      (mkDiscovery []
         (discover_in_turn network connected_bulbs (todo d)
                           (collection d ++ built (pending d))%list) [])
  /\ discovery_pass network connected_bulbs (todo d) (collection d)
       (discover_in_turn network connected_bulbs (todo d) (collection d)).
Proof.
  split; [| apply in_turn_is_pass].
  destruct d as [rs ls ps]. cbn [todo collection pending].
  eapply rtc_trans; [apply drain_pending |].
  apply (in_turn_is_pass network connected_bulbs rs (ls ++ built ps)%list).
Qed.

(** X26. Two records with the same address, which has no Light yet, can
    both get a Light in one pass: the second is checked while the
    construction of the first is still under way. *)
Theorem discovery_race_on_equal_addresses
    (network : string -> Bulb) (connected_bulbs : list string)
    (r1 r2 : db_light) (before : list Light) (l1 l2 : Light) :
  db_ip r1 = db_ip r2 ->
  get_light_by_ip before (db_ip r1) = None ->
  construct_light network connected_bulbs r1 = Ok l1 ->
  construct_light network connected_bulbs r2 = Ok l2 ->
  discovery_pass network connected_bulbs [r1; r2] before (before ++ [l1; l2])%list
  /\ ip l1 = ip l2.
Proof.
  intros Hsame Hnone Hl1 Hl2. split.
  - unfold discovery_pass.
    eapply rtc_l; [exact (step_submit network connected_bulbs r1 [r2] before [] Hnone) |].
    rewrite Hsame in Hnone.
    eapply rtc_l; [exact (step_submit network connected_bulbs r2 [] before _ Hnone) |].
    cbn [app]. rewrite Hl1, Hl2.
    replace (before ++ [l1; l2])%list with (before ++ built [Ok l1; Ok l2])%list
      by reflexivity.
    apply (drain_pending network connected_bulbs [] _ before).
  - rewrite (construct_light_ip _ _ _ _ Hl1), (construct_light_ip _ _ _ _ Hl2).
    exact Hsame.
Qed.

Lemma discovery_race_on_equal_addresses_witness :
  let twin := mkDbLight "5f20" "192.168.1.10" (pystr_of_string "TWIN") false in
  exists l1 l2 : Light,
    discovery_pass home_network [] [record_lamp; twin] [] ([] ++ [l1; l2])%list
    /\ ip l1 = ip l2.
Proof.
  intros twin.
  destruct (construct_light home_network [] record_lamp) as [l1 | e1] eqn:Hl1;
    [| vm_compute in Hl1; discriminate Hl1].
  destruct (construct_light home_network [] twin) as [l2 | e2] eqn:Hl2;
    [| vm_compute in Hl2; discriminate Hl2].
  exists l1, l2.
  apply (discovery_race_on_equal_addresses home_network [] record_lamp twin [] l1 l2);
    first [reflexivity | assumption].
Defined.
